(** * infra-gen: the generation engine, embedded and verified

    A shallow embedding of the Go packages [pkg/types], [internal/generators/docker],
    [internal/generators/ansible], [internal/presets] and [internal/templates],
    and of the computations of [cmd] that do no input or output, followed by
    the properties of the specification that concern them and by further
    properties read off the code.

    Conventions of the embedding.
    - A Go [string] is a byte string ([String.string]).  [strings.ToUpper] and
      [strings.ToLower] are modelled on ASCII text, where they change the
      letters a-z and A-Z and nothing else; the library also maps the letters
      of the other scripts and repairs invalid UTF-8, which is not modelled,
      so a property that rests on the case mapping of a string takes that
      string to be ASCII ([isASCII], [asciiLead]).
    - A Go [int] is a [Z]; a slice is a [list] (a nil slice is the empty list).
    - A Go [map[string]T] is a [gmap string T].  The order in which [range]
      visits a map is not fixed by the language (the runtime randomises it), so
      every function that ranges over a map takes the iteration [Schedule] of
      the run as an argument.
    - A pointer receiver that is mutated ([*ValidationErrors], [strings.Builder])
      is passed and returned explicitly.
    - [time.Now] reads an explicit clock. *)

From Stdlib Require Import ZArith DecimalString Ascii String.
From stdpp Require Import gmap strings list fin_maps.

(** ** The Go runtime pieces the program uses *)

(** The line feed and the double quote, written from their codes. *)
Definition nl : string := String (ascii_of_nat 10) EmptyString.
Definition dquote : string := String (ascii_of_nat 34) EmptyString.

Module GoStrings.

Definition isLower (c : ascii) : bool :=
  let n := N_of_ascii c in ((97 <=? n) && (n <=? 122))%N.

Definition isUpper (c : ascii) : bool :=
  let n := N_of_ascii c in ((65 <=? n) && (n <=? 90))%N.

Definition upperByte (c : ascii) : ascii :=
  if isLower c then ascii_of_N (N_of_ascii c - 32) else c.

Definition lowerByte (c : ascii) : ascii :=
  if isUpper c then ascii_of_N (N_of_ascii c + 32) else c.

Fixpoint mapBytes (f : ascii → ascii) (s : string) : string :=
  match s with
  | EmptyString => EmptyString
  | String c s' => String (f c) (mapBytes f s')
  end.

(** [strings.ToUpper(s)] and [strings.ToLower(s)] for a string [s] of ASCII
    bytes: the library maps a-z to A-Z, or A-Z to a-z, and keeps every other
    byte.  On a string with a byte above 127 the library decodes UTF-8 and
    the two definitions below do not follow it. *)
Definition ToUpper : string → string := mapBytes upperByte.
Definition ToLower : string → string := mapBytes lowerByte.

(** [strings.HasPrefix(s, prefix)] *)
Definition HasPrefix (s prefix : string) : bool := String.prefix prefix s.

(** [strings.Contains(s, substr)] *)
Fixpoint Contains (s substr : string) : bool :=
  String.prefix substr s
  || match s with
     | EmptyString => false
     | String _ s' => Contains s' substr
     end.

(** [strings.Join(elems, sep)] *)
Fixpoint Join (elems : list string) (sep : string) : string :=
  match elems with
  | [] => EmptyString
  | [e] => e
  | e :: rest => e +:+ sep +:+ Join rest sep
  end.

(** [strings.ReplaceAll(s, old, new)]: the non-overlapping occurrences of
    [old], from the left.  [skip] counts the bytes of a match still to be
    dropped.  With an empty [old], [new] goes before every byte and at the
    end. *)
Fixpoint replaceFrom (skip : nat) (s old new : string) : string :=
  match s with
  | EmptyString => EmptyString
  | String c s' =>
      match skip with
      | S k => replaceFrom k s' old new
      | O =>
          if String.prefix old s
          then new +:+ replaceFrom (String.length old - 1) s' old new
          else String c (replaceFrom 0 s' old new)
      end
  end.

Fixpoint intersperse (s new : string) : string :=
  match s with
  | EmptyString => new
  | String c s' => new +:+ String c (intersperse s' new)
  end.

Definition ReplaceAll (s old new : string) : string :=
  match old with
  | EmptyString => intersperse s new
  | _ => replaceFrom 0 s old new
  end.

End GoStrings.

Module fmt.

(** The verb [%d] on an [int]. *)
Definition d (n : Z) : string := NilZero.string_of_int (Z.to_int n).

(** The verb [%v] on a [bool]. *)
Definition vBool (b : bool) : string := if b then "true" else "false".

(** The verb [%v] on a [[]string]: the elements between brackets, separated
    by one space. *)
Definition vStrings (l : list string) : string :=
  "[" +:+ GoStrings.Join l " " +:+ "]".

End fmt.

(** [strings.Builder]: the text written so far. *)
Definition Builder := string.
Definition WriteString (b : Builder) (s : string) : Builder := b +:+ s.
Notation "b <+ s" := (WriteString b s) (at level 50, left associativity).

(** [for i, x := range slice { body }], with the state the body updates. *)
Fixpoint forRange {A St : Type} (body : nat → A → St → St)
    (i : nat) (l : list A) (st : St) : St :=
  match l with
  | [] => st
  | x :: l' => forRange body (S i) l' (body i x st)
  end.

(** *** Iteration over maps *)

(** The places of the program that range over a map; a place inside a loop over
    the services carries the index of the service. *)
Inductive RangeSite :=
| ComposeEnvironment (i : nat)
| EnvFileVariables
| EnvFileEnvironment (i : nat)
| VarsVariables
| PlaybookVars
| InventoryVariables
| PresetEnvironment (i : nat)
| PresetVariables.

(** The iteration order of one run: for each executed [range], the entries in
    the order they are visited. *)
Definition Schedule := ∀ V : Type, RangeSite → gmap string V → list (string * V).

(** What the language guarantees: every entry is visited once. *)
Definition fair (σ : Schedule) : Prop :=
  ∀ V site (m : gmap string V), σ V site m ≡ₚ map_to_list m.

(** Two schedules, to run the model on concrete inputs. *)
Definition keyOrder : Schedule := λ V _ m, map_to_list m.
Definition reverseOrder : Schedule := λ V _ m, reverse (map_to_list m).

(** [for k, v := range m { dst[k] = v }] *)
Definition copyInto {V} (σ : Schedule) (site : RangeSite)
    (src dst : gmap string V) : gmap string V :=
  foldl (λ acc kv, <[kv.1 := kv.2]> acc) dst (σ V site src).

(** *** The clock *)

Definition Time := Z.

(** A clock gives the instant of its n-th reading; the state of a run is the
    number of readings made so far. *)
Definition Clock := nat → Time.
Definition Now (clock : Clock) (tick : nat) : Time * nat := (clock tick, S tick).
Definition monotonic (clock : Clock) : Prop :=
  ∀ i j, i ≤ j → (clock i ≤ clock j)%Z.

(** ** pkg/types/types.go *)

Definition ProjectType := string.
Definition ProjectTypeWebApp : ProjectType := "web-app".
Definition ProjectTypeMicroservice : ProjectType := "microservice".
Definition ProjectTypeDatabase : ProjectType := "database".
Definition ProjectTypeML : ProjectType := "ml".
Definition ProjectTypeInfrastructure : ProjectType := "infrastructure".

Definition Target := string.
Definition TargetDocker : Target := "docker".
Definition TargetAnsible : Target := "ansible".
Definition TargetTerraform : Target := "terraform".

(** Each struct lives in a module of its name, so that the fields keep the
    names of the source; the field [Type] is written [Type_]. *)
Module PortConfig.
Record t := mk { Host : Z; Container : Z; Protocol : string }.
End PortConfig.

Module VolumeConfig.
Record t := mk {
  Source : string; Target : string; ReadOnly : bool; Type_ : string }.
End VolumeConfig.

Module ServiceConfig.
Record t := mk {
  Name : string;
  Type_ : string;
  Image : string;
  Ports : list PortConfig.t;
  Volumes : list VolumeConfig.t;
  Environment : gmap string string;
  DependsOn : list string;
  Enabled : bool }.
End ServiceConfig.

Module ProjectConfig.
Record t := mk {
  Name : string;
  Type_ : ProjectType;
  Description : string;
  Version : string;
  Environment : string;
  Services : list ServiceConfig.t;
  Variables : gmap string string;
  CreatedAt : Time;
  UpdatedAt : Time }.
End ProjectConfig.

Module GeneratedFile.
Record t := mk {
  Path : string; Content : string; Type_ : Target; Encoding : string }.
End GeneratedFile.

Module PresetService.
Record t := mk {
  Name : string;
  Type_ : string;
  Description : string;
  Image : string;
  Ports : list PortConfig.t;
  Volumes : list VolumeConfig.t;
  Environment : gmap string string;
  Optional : bool }.
End PresetService.

Module Preset.
Record t := mk {
  ID : string;
  Name : string;
  Description : string;
  Category : string;
  Services : list PresetService.t;
  Variables : gmap string string;
  Tags : list string }.
End Preset.

(** ** pkg/types/validation.go *)

(** The [interface{}] stored in a validation error holds a string, a project
    type or an int in this program. *)
Inductive Value :=
| VString (s : string)
| VProjectType (p : ProjectType)
| VInt (n : Z).

Module ValidationError.
Record t := mk { Field : string; Message : string; Value_ : Value }.

Definition Error (e : t) : string :=
  "validation error on field '" +:+ Field e +:+ "': " +:+ Message e.
End ValidationError.

Definition ValidationErrors := list ValidationError.t.

Module ValidationErrors_.
(** [func (ve ValidationErrors) Error() string] *)
Definition Error (ve : ValidationErrors) : string :=
  if (length ve =? 0)%nat then "no validation errors"
  else
    forRange
      (λ i err msg,
         msg +:+ nl +:+ fmt.d (Z.of_nat i + 1) +:+ ". " +:+ ValidationError.Error err)
      0 ve
      (fmt.d (Z.of_nat (length ve)) +:+ " validation error(s):").

(** [func (ve *ValidationErrors) Add(field, message string, value interface{})];
    the updated collection is returned. *)
Definition Add (ve : ValidationErrors) (field message : string) (value : Value)
    : ValidationErrors :=
  ve ++ [ValidationError.mk field message value].

Definition HasErrors (ve : ValidationErrors) : bool := (0 <? length ve)%nat.
End ValidationErrors_.

(** The values of the interface [error] that the program builds: a collection
    of validation errors, a message made by [fmt.Errorf], and an error wrapped
    by [fmt.Errorf] with the verb [%w] after a prefix. *)
Inductive error :=
| ErrValidation (ve : ValidationErrors)
| ErrMessage (msg : string)
| ErrWrap (prefix : string) (err : error).

Fixpoint Error (e : error) : string :=
  match e with
  | ErrValidation ve => ValidationErrors_.Error ve
  | ErrMessage msg => msg
  | ErrWrap prefix err => prefix +:+ Error err
  end.

Definition isEmpty (s : string) : bool := (s =? "")%string.

(** ** internal/generators/docker *)

Module Docker.
Import ValidationErrors_.

Definition GetTarget : Target := TargetDocker.

(** The body of the loop over the services in [Validate]. *)
Definition validateService (i : nat) (service : ServiceConfig.t)
    (errors : ValidationErrors) : ValidationErrors :=
  let errors :=
    if isEmpty (ServiceConfig.Name service)
    then Add errors ("services[" +:+ fmt.d (Z.of_nat i) +:+ "].name")
           "service name is required" (VString (ServiceConfig.Name service))
    else errors in
  if isEmpty (ServiceConfig.Type_ service)
  then Add errors ("services[" +:+ fmt.d (Z.of_nat i) +:+ "].type")
         "service type is required" (VString (ServiceConfig.Type_ service))
  else errors.

Definition Validate (config : ProjectConfig.t) : option error :=
  let errors : ValidationErrors := [] in
  let errors :=
    if isEmpty (ProjectConfig.Name config)
    then Add errors "name" "project name is required"
           (VString (ProjectConfig.Name config))
    else errors in
  let errors :=
    if (length (ProjectConfig.Services config) =? 0)%nat
    then Add errors "services" "at least one service is required"
           (VInt (Z.of_nat (length (ProjectConfig.Services config))))
    else errors in
  let errors := forRange validateService 0 (ProjectConfig.Services config) errors in
  if HasErrors errors then Some (ErrValidation errors) else None.


(** One entry of the [ports:] list of a service block. *)
Definition writePort (b : Builder) (port : PortConfig.t) : Builder :=
  let b := b <+ ("      - " +:+ dquote) in
  let b :=
    if (0 <? PortConfig.Host port)%Z
    then b <+ fmt.d (PortConfig.Host port) <+ ":"
    else b in
  let b := b <+ fmt.d (PortConfig.Container port) in
  let b := b <+ dquote in
  let b :=
    if negb (isEmpty (PortConfig.Protocol port))
    then b <+ " # " <+ PortConfig.Protocol port
    else b in
  b <+ nl.

(** One entry of the [volumes:] list of a service block. *)
Definition writeVolume (b : Builder) (volume : VolumeConfig.t) : Builder :=
  let b := b <+ "      - " in
  let b := b <+ VolumeConfig.Source volume in
  let b := b <+ ":" in
  let b := b <+ VolumeConfig.Target volume in
  let b := if VolumeConfig.ReadOnly volume then b <+ ":ro" else b in
  b <+ nl.

Definition writeEnvironment (b : Builder) (kv : string * string) : Builder :=
  b <+ "      " <+ kv.1 <+ ": " <+ kv.2 <+ nl.

Definition writeDependency (b : Builder) (dep : string) : Builder :=
  b <+ "      - " <+ dep <+ nl.

(** The body of the first loop of [generateComposeYAML]: a disabled service
    is passed over by [continue]. *)
Definition writeService (σ : Schedule) (i : nat) (service : ServiceConfig.t)
    (b : Builder) : Builder :=
  if negb (ServiceConfig.Enabled service) then b
  else
    let b := b <+ "  " <+ ServiceConfig.Name service <+ (":" +:+ nl) in
    let b :=
      if negb (isEmpty (ServiceConfig.Image service))
      then b <+ "    image: " <+ ServiceConfig.Image service <+ nl
      else b in
    let b :=
      if (0 <? length (ServiceConfig.Ports service))%nat
      then foldl writePort (b <+ ("    ports:" +:+ nl)) (ServiceConfig.Ports service)
      else b in
    let b :=
      if (0 <? length (ServiceConfig.Volumes service))%nat
      then foldl writeVolume (b <+ ("    volumes:" +:+ nl)) (ServiceConfig.Volumes service)
      else b in
    let b :=
      if (0 <? size (ServiceConfig.Environment service))%nat
      then foldl writeEnvironment (b <+ ("    environment:" +:+ nl))
             (σ _ (ComposeEnvironment i) (ServiceConfig.Environment service))
      else b in
    let b :=
      if (0 <? length (ServiceConfig.DependsOn service))%nat
      then foldl writeDependency (b <+ ("    depends_on:" +:+ nl))
             (ServiceConfig.DependsOn service)
      else b in
    b <+ nl.

(** The loop that sets [hasVolumes], left by [break] at the first service
    with a non-empty volume list. *)
Fixpoint hasVolumes (services : list ServiceConfig.t) : bool :=
  match services with
  | [] => false
  | service :: rest =>
      if (0 <? length (ServiceConfig.Volumes service))%nat then true
      else hasVolumes rest
  end.

Definition writeNamedVolume (b : Builder) (volume : VolumeConfig.t) : Builder :=
  if (VolumeConfig.Type_ volume =? "volume")%string
  then b <+ "  " <+ VolumeConfig.Source volume <+ (":" +:+ nl)
  else b.

Definition writeNamedVolumes (b : Builder) (service : ServiceConfig.t) : Builder :=
  foldl writeNamedVolume b (ServiceConfig.Volumes service).

(** What is written after the service blocks. *)
Definition writeVolumesSection (services : list ServiceConfig.t) (b : Builder)
    : Builder :=
  if hasVolumes services
  then foldl writeNamedVolumes (b <+ ("volumes:" +:+ nl)) services
  else b.

Definition generateComposeYAML (σ : Schedule) (config : ProjectConfig.t)
    : string * option error :=
  let b : Builder := EmptyString in
  let b := b <+ ("services:" +:+ nl) in
  let b := forRange (writeService σ) 0 (ProjectConfig.Services config) b in
  let b := writeVolumesSection (ProjectConfig.Services config) b in
  (b, None).

(** The test that decides whether a service variable goes to the .env file. *)
Definition looksExternal (key : string) : bool :=
  GoStrings.Contains (GoStrings.ToUpper key) "PASSWORD"
  || GoStrings.Contains (GoStrings.ToUpper key) "SECRET"
  || GoStrings.Contains (GoStrings.ToUpper key) "KEY"
  || GoStrings.Contains (GoStrings.ToUpper key) "TOKEN".

Definition projectLine (kv : string * string) : string :=
  kv.1 +:+ "=" +:+ kv.2.

Definition serviceLine (service : ServiceConfig.t) (kv : string * string) : string :=
  GoStrings.ToUpper (ServiceConfig.Name service) +:+ "_" +:+ kv.1 +:+ "=" +:+ kv.2.

(** The slice [envVars] of [generateEnvFile], as it stands after both loops. *)
Definition envVars (σ : Schedule) (config : ProjectConfig.t) : list string :=
  let envVars : list string := [] in
  let envVars :=
    foldl (λ envVars kv, envVars ++ [projectLine kv]) envVars
      (σ _ EnvFileVariables (ProjectConfig.Variables config)) in
  forRange
    (λ i service envVars,
       foldl
         (λ envVars kv,
            if looksExternal kv.1 then envVars ++ [serviceLine service kv]
            else envVars)
         envVars
         (σ _ (EnvFileEnvironment i) (ServiceConfig.Environment service)))
    0 (ProjectConfig.Services config) envVars.

Definition generateEnvFile (σ : Schedule) (config : ProjectConfig.t) : string :=
  let envVars := envVars σ config in
  if (length envVars =? 0)%nat then EmptyString
  else GoStrings.Join envVars nl +:+ nl.

Definition Generate (σ : Schedule) (config : ProjectConfig.t)
    : list GeneratedFile.t * option error :=
  match Validate config with
  | Some err => ([], Some err)
  | None =>
      match generateComposeYAML σ config with
      | (_, Some err) =>
          ([], Some (ErrWrap "failed to generate compose YAML: " err))
      | (yamlContent, None) =>
          let envContent := generateEnvFile σ config in
          let files :=
            [GeneratedFile.mk "docker-compose.yml" yamlContent TargetDocker "utf-8"] in
          let files :=
            if negb (isEmpty envContent)
            then files ++ [GeneratedFile.mk ".env" envContent TargetDocker "utf-8"]
            else files in
          (files, None)
      end
  end.

End Docker.

(** ** internal/generators/ansible *)

Module AnsibleTask.
(** The fields [WithItems] and [Vars] are declared by the source and never
    set; they are left out. *)
Record t := mk {
  Name : string; Module_ : string; Package : string; State : string }.
End AnsibleTask.

Module InventoryGroup.
Record t := mk { Hosts : gmap string (gmap string string) }.
End InventoryGroup.

Module AnsibleInventory.
(** The struct [All] of the source, flattened. *)
Record t := mk {
  Children : gmap string InventoryGroup.t;
  Vars : gmap string string }.
End AnsibleInventory.

(** The [interface{}] values that the playbook variables hold. *)
Inductive VarValue :=
| VarString (s : string)
| VarStrings (l : list string)
| VarBool (b : bool).

Module Ansible.
Import ValidationErrors_.

Definition GetTarget : Target := TargetAnsible.

(** The verb [%v] on a playbook variable. *)
Definition v (value : VarValue) : string :=
  match value with
  | VarString s => s
  | VarStrings l => fmt.vStrings l
  | VarBool b => fmt.vBool b
  end.

Definition validateService (i : nat) (service : ServiceConfig.t)
    (errors : ValidationErrors) : ValidationErrors :=
  let errors :=
    if isEmpty (ServiceConfig.Name service)
    then Add errors ("services[" +:+ fmt.d (Z.of_nat i) +:+ "].name")
           "service name is required" (VString (ServiceConfig.Name service))
    else errors in
  if isEmpty (ServiceConfig.Type_ service)
  then Add errors ("services[" +:+ fmt.d (Z.of_nat i) +:+ "].type")
         "service type is required" (VString (ServiceConfig.Type_ service))
  else errors.

Definition Validate (config : ProjectConfig.t) : option error :=
  let errors : ValidationErrors := [] in
  let errors :=
    if isEmpty (ProjectConfig.Name config)
    then Add errors "name" "project name is required"
           (VString (ProjectConfig.Name config))
    else errors in
  let errors :=
    if (length (ProjectConfig.Services config) =? 0)%nat
    then Add errors "services" "at least one service is required"
           (VInt (Z.of_nat (length (ProjectConfig.Services config))))
    else errors in
  let errors := forRange validateService 0 (ProjectConfig.Services config) errors in
  if HasErrors errors then Some (ErrValidation errors) else None.

Definition extractPorts (ports : list PortConfig.t) : list string :=
  foldl
    (λ portStrings port,
       if (0 <? PortConfig.Host port)%Z
       then portStrings
              ++ [fmt.d (PortConfig.Host port) +:+ ":" +:+ fmt.d (PortConfig.Container port)]
       else portStrings ++ [fmt.d (PortConfig.Container port)])
    [] ports.

Definition extractVolumes (volumes : list VolumeConfig.t) : list string :=
  foldl
    (λ volumeStrings volume,
       volumeStrings
         ++ [VolumeConfig.Source volume +:+ ":" +:+ VolumeConfig.Target volume])
    [] volumes.

Definition generateVars (σ : Schedule) (config : ProjectConfig.t)
    : gmap string VarValue :=
  let vars : gmap string VarValue := ∅ in
  let vars :=
    foldl (λ vars kv, <[kv.1 := VarString kv.2]> vars) vars
      (σ _ VarsVariables (ProjectConfig.Variables config)) in
  foldl
    (λ vars service,
       let prefix := GoStrings.ReplaceAll (ServiceConfig.Name service) "-" "_" in
       let vars := <[prefix +:+ "_image" := VarString (ServiceConfig.Image service)]> vars in
       let vars :=
         <[prefix +:+ "_ports" := VarStrings (extractPorts (ServiceConfig.Ports service))]> vars in
       let vars :=
         <[prefix +:+ "_volumes" := VarStrings (extractVolumes (ServiceConfig.Volumes service))]> vars in
       <[prefix +:+ "_enabled" := VarBool (ServiceConfig.Enabled service)]> vars)
    vars (ProjectConfig.Services config).

(** The tasks a service adds; a disabled service is passed over. *)
Definition serviceTasks (tasks : list AnsibleTask.t) (service : ServiceConfig.t)
    : list AnsibleTask.t :=
  if negb (ServiceConfig.Enabled service) then tasks
  else
    let tasks :=
      foldl
        (λ tasks volume,
           if negb (isEmpty (VolumeConfig.Source volume))
              && negb (GoStrings.HasPrefix (VolumeConfig.Source volume) "/")
           then tasks
                  ++ [AnsibleTask.mk
                        ("Create directory for " +:+ VolumeConfig.Source volume +:+ " volume")
                        "file" (VolumeConfig.Source volume) "directory"]
           else tasks)
        tasks (ServiceConfig.Volumes service) in
    if negb (isEmpty (ServiceConfig.Image service))
    then tasks
           ++ [AnsibleTask.mk
                 ("Pull " +:+ ServiceConfig.Name service +:+ " Docker image")
                 "docker_image" (ServiceConfig.Image service) "present"]
    else tasks.

Definition generateTasks (config : ProjectConfig.t) : list AnsibleTask.t :=
  let tasks : list AnsibleTask.t := [] in
  let tasks := tasks ++ [AnsibleTask.mk "Update package cache" "apt" "apt" "present"] in
  let tasks := tasks ++ [AnsibleTask.mk "Install Docker" "package" "docker.io" "present"] in
  let tasks :=
    tasks ++ [AnsibleTask.mk "Start and enable Docker service" "systemd" "docker" "started"] in
  let tasks := foldl serviceTasks tasks (ProjectConfig.Services config) in
  let tasks :=
    tasks
      ++ [AnsibleTask.mk "Create docker-compose.yml" "file"
            "/opt/{{ project_name }}/docker-compose.yml" "directory"] in
  tasks
    ++ [AnsibleTask.mk "Deploy services with Docker Compose" "docker_compose"
          "/opt/{{ project_name }}" "present"].

Definition writeVar (b : Builder) (kv : string * VarValue) : Builder :=
  b <+ "    " <+ kv.1 <+ ": " <+ v kv.2 <+ nl.

Definition writeTask (b : Builder) (task : AnsibleTask.t) : Builder :=
  let b := b <+ "    - name: " <+ AnsibleTask.Name task <+ nl in
  if negb (isEmpty (AnsibleTask.Module_ task))
  then
    let b := b <+ "      " <+ AnsibleTask.Module_ task <+ (":" +:+ nl) in
    let b :=
      if negb (isEmpty (AnsibleTask.Package task))
      then b <+ "        name: " <+ AnsibleTask.Package task <+ nl
      else b in
    if negb (isEmpty (AnsibleTask.State task))
    then b <+ "        state: " <+ AnsibleTask.State task <+ nl
    else b
  else b.

Definition generatePlaybook (σ : Schedule) (config : ProjectConfig.t)
    : string * option error :=
  let b : Builder := EmptyString in
  let b := b <+ ("---" +:+ nl) in
  let b := b <+ ("- hosts: all" +:+ nl) in
  let b := b <+ ("  become: true" +:+ nl) in
  let b := b <+ "  name: Deploy " in
  let b := b <+ ProjectConfig.Name config in
  let b := b <+ nl in
  let vars := generateVars σ config in
  let b :=
    if (0 <? size vars)%nat
    then foldl writeVar (b <+ ("  vars:" +:+ nl)) (σ _ PlaybookVars vars)
    else b in
  let tasks := generateTasks config in
  let b := b <+ ("  tasks:" +:+ nl) in
  let b := foldl writeTask b tasks in
  (b, None).

(** The loops of [hasServiceType]; each returns at the first match. *)
Fixpoint matchesType (type_ : string) (types : list string) : bool :=
  match types with
  | [] => false
  | t :: rest =>
      if GoStrings.Contains (GoStrings.ToLower type_) (GoStrings.ToLower t)
      then true
      else matchesType type_ rest
  end.

Fixpoint hasServiceType (services : list ServiceConfig.t) (types : list string)
    : bool :=
  match services with
  | [] => false
  | service :: rest =>
      if matchesType (ServiceConfig.Type_ service) types then true
      else hasServiceType rest types
  end.

Definition webserversGroup : InventoryGroup.t :=
  InventoryGroup.mk
    {[ "webserver1" :=
         <["ansible_host" := "{{ webserver_ip | default('127.0.0.1') }}"]>
           {[ "ansible_user" := "{{ ansible_user | default('ubuntu') }}" ]} ]}.

Definition databasesGroup : InventoryGroup.t :=
  InventoryGroup.mk
    {[ "database1" :=
         <["ansible_host" := "{{ database_ip | default('127.0.0.1') }}"]>
           {[ "ansible_user" := "{{ ansible_user | default('ubuntu') }}" ]} ]}.

(** The inventory that [generateInventory] hands to [yaml.Marshal]. *)
Definition buildInventory (σ : Schedule) (config : ProjectConfig.t)
    : AnsibleInventory.t :=
  let children : gmap string InventoryGroup.t := ∅ in
  let children :=
    if hasServiceType (ProjectConfig.Services config) ["web"; "frontend"; "nginx"]
    then <["webservers" := webserversGroup]> children
    else children in
  let children :=
    if hasServiceType (ProjectConfig.Services config)
         ["database"; "postgres"; "mysql"; "mongo"]
    then <["databases" := databasesGroup]> children
    else children in
  let vars : gmap string string :=
    <["project_name" := ProjectConfig.Name config]>
      {[ "environment" := ProjectConfig.Environment config ]} in
  let vars := copyInto σ InventoryVariables (ProjectConfig.Variables config) vars in
  AnsibleInventory.mk children vars.

Definition generateRequirements (config : ProjectConfig.t) : string := EmptyString.

Section Marshal.

(** [yaml.Marshal] of gopkg.in/yaml.v3, on an inventory. *)
Variable yamlMarshal : AnsibleInventory.t → string * option error.

Definition generateInventory (σ : Schedule) (config : ProjectConfig.t)
    : string * option error :=
  match yamlMarshal (buildInventory σ config) with
  | (_, Some err) => (EmptyString, Some err)
  | (yamlData, None) => (yamlData, None)
  end.

Definition Generate (σ : Schedule) (config : ProjectConfig.t)
    : list GeneratedFile.t * option error :=
  match Validate config with
  | Some err => ([], Some err)
  | None =>
      let files : list GeneratedFile.t := [] in
      match generatePlaybook σ config with
      | (_, Some err) => ([], Some (ErrWrap "failed to generate playbook: " err))
      | (playbookContent, None) =>
          let files :=
            files ++ [GeneratedFile.mk "playbook.yml" playbookContent TargetAnsible "utf-8"] in
          match generateInventory σ config with
          | (_, Some err) => ([], Some (ErrWrap "failed to generate inventory: " err))
          | (inventoryContent, None) =>
              let files :=
                files
                  ++ [GeneratedFile.mk "inventory.yml" inventoryContent TargetAnsible "utf-8"] in
              let requirementsContent := generateRequirements config in
              let files :=
                if negb (isEmpty requirementsContent)
                then files
                       ++ [GeneratedFile.mk "requirements.yml" requirementsContent
                             TargetAnsible "utf-8"]
                else files in
              (files, None)
          end
      end
  end.

End Marshal.

End Ansible.

(** ** internal/templates *)

Module TemplateManager.
(** The two catalogs; [embedded] is filled from the bundled files when the
    manager is made, and is taken here as it stands afterwards. *)
Record t := mk {
  embedded : gmap string Preset.t;
  custom : gmap string Preset.t }.

Definition GetPreset (tm : t) (id : string) : Preset.t + error :=
  match embedded tm !! id with
  | Some preset => inl preset
  | None =>
      match custom tm !! id with
      | Some preset => inl preset
      | None => inr (ErrMessage ("preset '" +:+ id +:+ "' not found"))
      end
  end.
End TemplateManager.

(** ** internal/presets/manager.go *)

Module Manager.
Import ValidationErrors_.

Record t := mk { templateManager : TemplateManager.t }.

Definition getProjectTypeFromPreset (presetID : string) : ProjectType :=
  if (presetID =? "web-app")%string then ProjectTypeWebApp
  else if (presetID =? "microservice")%string then ProjectTypeMicroservice
  else if (presetID =? "database")%string then ProjectTypeDatabase
  else if (presetID =? "ml")%string then ProjectTypeML
  else if (presetID =? "infrastructure")%string then ProjectTypeInfrastructure
  else ProjectTypeWebApp.

Definition tcp (container : Z) : PortConfig.t := PortConfig.mk 0 container "tcp".

Definition namedVolume (source target : string) : VolumeConfig.t :=
  VolumeConfig.mk source target false "volume".

(** A preset that carries services only, as [loadPresetTemplateData] builds. *)
Definition servicesOnly (services : list PresetService.t) : Preset.t :=
  Preset.mk EmptyString EmptyString EmptyString EmptyString services ∅ [].

Definition webAppServices : list PresetService.t :=
  [ PresetService.mk "frontend" "frontend" "Frontend web application" "nginx:alpine"
      [tcp 80] [] {[ "REACT_APP_API_URL" := "http://api:8080" ]} false;
    PresetService.mk "api" "api" "Backend API server" "node:18-alpine"
      [tcp 8080] []
      (<["NODE_ENV" := "development"]> {[ "DB_HOST" := "database" ]}) false;
    PresetService.mk "database" "database" "PostgreSQL database" "postgres:15"
      [tcp 5432] [namedVolume "db_data" "/var/lib/postgresql/data"]
      (<["POSTGRES_DB" := "webapp"]> {[ "POSTGRES_USER" := "admin" ]}) false ].

Definition microserviceServices : list PresetService.t :=
  [ PresetService.mk "api-gateway" "gateway" "API Gateway" "nginx:alpine"
      [tcp 80] [] {[ "UPSTREAM_SERVICE1" := "service1:8081" ]} false;
    PresetService.mk "service1" "microservice" "First microservice" "node:18-alpine"
      [tcp 8081] [] {[ "SERVICE_NAME" := "service1" ]} false;
    PresetService.mk "redis" "cache" "Redis cache" "redis:7-alpine"
      [tcp 6379] [namedVolume "redis_data" "/data"] ∅ false ].

Definition databaseServices : list PresetService.t :=
  [ PresetService.mk "postgres" "database" "PostgreSQL database" "postgres:15"
      [tcp 5432] [namedVolume "postgres_data" "/var/lib/postgresql/data"]
      (<["POSTGRES_DB" := "myapp"]> {[ "POSTGRES_USER" := "postgres" ]}) false;
    PresetService.mk "mysql" "database" "MySQL database" "mysql:8.0"
      [tcp 3306] [namedVolume "mysql_data" "/var/lib/mysql"]
      (<["MYSQL_DATABASE" := "myapp"]> {[ "MYSQL_USER" := "mysql" ]}) true ].

Definition loadPresetTemplateData (presetID : string) : Preset.t + error :=
  if (presetID =? "web-app")%string then inl (servicesOnly webAppServices)
  else if (presetID =? "microservice")%string then inl (servicesOnly microserviceServices)
  else if (presetID =? "database")%string then inl (servicesOnly databaseServices)
  else inl (servicesOnly []).

(** The body of the loop that turns the services of a preset into services
    of the project. *)
Definition convertService (σ : Schedule) (i : nat)
    (presetService : PresetService.t) (services : list ServiceConfig.t)
    : list ServiceConfig.t :=
  let service :=
    ServiceConfig.mk
      (PresetService.Name presetService)
      (PresetService.Type_ presetService)
      (PresetService.Image presetService)
      (PresetService.Ports presetService)
      (PresetService.Volumes presetService)
      (copyInto σ (PresetEnvironment i) (PresetService.Environment presetService) ∅)
      []
      (negb (PresetService.Optional presetService)) in
  services ++ [service].

(** [CreateProjectFromPreset] reads the clock twice, once for each timestamp;
    the number of readings made is returned with the result. *)
Definition CreateProjectFromPreset (σ : Schedule) (clock : Clock) (tick : nat)
    (m : t) (presetID projectName environment : string)
    : (ProjectConfig.t + error) * nat :=
  match TemplateManager.GetPreset (templateManager m) presetID with
  | inr err => (inr err, tick)
  | inl preset =>
      let type_ := getProjectTypeFromPreset presetID in
      let '(createdAt, tick) := Now clock tick in
      let '(updatedAt, tick) := Now clock tick in
      match loadPresetTemplateData presetID with
      | inr err =>
          (inr (ErrWrap "failed to load preset template data: " err), tick)
      | inl presetWithServices =>
          let services :=
            forRange (convertService σ) 0 (Preset.Services presetWithServices) [] in
          let variables := copyInto σ PresetVariables (Preset.Variables preset) ∅ in
          (inl (ProjectConfig.mk projectName type_ (Preset.Description preset)
                  "1.0.0" environment services variables createdAt updatedAt),
           tick)
      end
  end.

(** The loop that looks for a service name seen before; [serviceNames] is the
    map of the names seen, a missing key reads as false. *)
Definition checkDuplicate (st : gmap string bool * ValidationErrors)
    (service : ServiceConfig.t) : gmap string bool * ValidationErrors :=
  let '(serviceNames, errors) := st in
  let errors :=
    if default false (serviceNames !! ServiceConfig.Name service)
    then Add errors "services"
           ("duplicate service name: " +:+ ServiceConfig.Name service)
           (VString (ServiceConfig.Name service))
    else errors in
  (<[ServiceConfig.Name service := true]> serviceNames, errors).

Definition validateService (i : nat) (service : ServiceConfig.t)
    (errors : ValidationErrors) : ValidationErrors :=
  let errors :=
    if isEmpty (ServiceConfig.Name service)
    then Add errors ("services[" +:+ fmt.d (Z.of_nat i) +:+ "].name")
           "service name is required" (VString (ServiceConfig.Name service))
    else errors in
  if isEmpty (ServiceConfig.Type_ service)
  then Add errors ("services[" +:+ fmt.d (Z.of_nat i) +:+ "].type")
         "service type is required" (VString (ServiceConfig.Type_ service))
  else errors.

Definition ValidateProject (config : ProjectConfig.t) : option error :=
  let errors : ValidationErrors := [] in
  let errors :=
    if isEmpty (ProjectConfig.Name config)
    then Add errors "name" "project name is required"
           (VString (ProjectConfig.Name config))
    else errors in
  let errors :=
    if isEmpty (ProjectConfig.Type_ config)
    then Add errors "type" "project type is required"
           (VProjectType (ProjectConfig.Type_ config))
    else errors in
  let errors :=
    if (length (ProjectConfig.Services config) =? 0)%nat
    then Add errors "services" "at least one service is required"
           (VInt (Z.of_nat (length (ProjectConfig.Services config))))
    else errors in
  let errors := forRange validateService 0 (ProjectConfig.Services config) errors in
  let '(_, errors) :=
    foldl checkDuplicate (∅, errors) (ProjectConfig.Services config) in
  if HasErrors errors then Some (ErrValidation errors) else None.

End Manager.

(** * The vocabulary of the specification *)

(** The letters of the ASCII alphabet, each lower-case letter paired with its
    upper-case form. *)
Definition lowerLetters : string := "abcdefghijklmnopqrstuvwxyz".
Definition upperLetters : string := "ABCDEFGHIJKLMNOPQRSTUVWXYZ".

Definition letterPairs : list (ascii * ascii) :=
  zip (list_ascii_of_string lowerLetters) (list_ascii_of_string upperLetters).


(** Two bytes are the same up to case: the same byte, or the two forms of a
    letter. *)
Definition sameByteIgnoringCase (c d : ascii) : Prop :=
  c = d ∨ (c, d) ∈ letterPairs ∨ (d, c) ∈ letterPairs.

(** Two byte strings are the same up to the case of their ASCII letters. *)
Fixpoint sameIgnoringCase (s t : string) : Prop :=
  match s, t with
  | EmptyString, EmptyString => True
  | String c s', String d t' => sameByteIgnoringCase c d ∧ sameIgnoringCase s' t'
  | _, _ => False
  end.

(** The upper-case form of a byte, read off the alphabet, and a byte string
    in upper case. *)
Definition upperOf (c : ascii) : ascii :=
  match list_find (λ p, p.1 = c) letterPairs with
  | Some (_, p) => p.2
  | None => c
  end.


(** [s] contains [w] case-insensitively: some substring of [s] is [w] up to
    case. *)
Definition containsIgnoringCase (s w : string) : Prop :=
  ∃ pre mid post, s = pre +:+ mid +:+ post ∧ sameIgnoringCase mid w.

(** A key that names a secret. *)
Definition sensitiveKey (key : string) : Prop :=
  ∃ w, w ∈ ["PASSWORD"; "SECRET"; "KEY"; "TOKEN"] ∧ containsIgnoringCase key w.

(** A service whose type is one of [types], case-insensitively and as a
    substring. *)
Definition someServiceOfType (services : list ServiceConfig.t)
    (types : list string) : Prop :=
  ∃ service t,
    service ∈ services ∧ t ∈ types
    ∧ containsIgnoringCase (ServiceConfig.Type_ service) t.



(** A byte string that is empty or begins with an ASCII byte. *)
Definition asciiLead (s : string) : Prop :=
  match s with
  | EmptyString => True
  | String c _ => (N_of_ascii c < 128)%N
  end.

(** The elements of a list with their positions, counted from [i]. *)
Fixpoint indexFrom {A} (i : nat) (l : list A) : list (nat * A) :=
  match l with
  | [] => []
  | x :: l' => (i, x) :: indexFrom (S i) l'
  end.

Fixpoint concatStrings (l : list string) : string :=
  match l with
  | [] => EmptyString
  | s :: l' => s +:+ concatStrings l'
  end.

(** A text made of lines: each line followed by a line feed. *)
Definition envFileText (lines : list string) : string :=
  concatStrings (map (λ line, line +:+ nl) lines).

(** The text that the manifest holds for the service at position [i]. *)
Definition serviceBlock (σ : Schedule) (p : nat * ServiceConfig.t) : string :=
  Docker.writeService σ p.1 p.2 EmptyString.

(** The text that the manifest holds after the service blocks. *)
Definition volumesSection (services : list ServiceConfig.t) : string :=
  Docker.writeVolumesSection services EmptyString.

(** The volume declarations of kind [volume], over the whole service list
    and in its order. *)
Definition namedVolumes (services : list ServiceConfig.t) : list VolumeConfig.t :=
  flat_map
    (λ service,
       filter (λ volume, VolumeConfig.Type_ volume = "volume")
         (ServiceConfig.Volumes service))
    services.

(** The entry of a named volume in the named-volumes section. *)
Definition namedVolumeEntry (volume : VolumeConfig.t) : string :=
  "  " +:+ VolumeConfig.Source volume +:+ ":" +:+ nl.

(** The lines that the service at a position adds to the .env file, in the
    order of the run. *)
Definition serviceLines (σ : Schedule) (p : nat * ServiceConfig.t) : list string :=
  map (Docker.serviceLine p.2)
    (filter (λ kv, Docker.looksExternal kv.1 = true)
       (σ _ (EnvFileEnvironment p.1) (ServiceConfig.Environment p.2))).

(** The lines that the .env file is specified to hold, in the order of the
    maps' canonical listing: KEY=VALUE for a project variable, and
    NAME_KEY=VALUE, with the service name in upper case, for a service
    environment entry that passes the key test. *)
Definition specifiedEnvLines (config : ProjectConfig.t) : list string :=
  map (λ kv, kv.1 +:+ "=" +:+ kv.2)
    (map_to_list (ProjectConfig.Variables config))
  ++ flat_map
       (λ service,
          map
            (λ kv,
               GoStrings.ToUpper (ServiceConfig.Name service)
                 +:+ "_" +:+ kv.1 +:+ "=" +:+ kv.2)
            (filter (λ kv, Docker.looksExternal kv.1 = true)
               (map_to_list (ServiceConfig.Environment service))))
       (ProjectConfig.Services config).

(** What a generated record says apart from its content. *)
Definition label (file : GeneratedFile.t) : string * Target * string :=
  (GeneratedFile.Path file, GeneratedFile.Type_ file, GeneratedFile.Encoding file).

(** The error that whole-project validation records for a repeated name. *)
Definition duplicateError (name : string) : ValidationError.t :=
  ValidationError.mk "services" ("duplicate service name: " +:+ name) (VString name).

(** A service that passes validation. *)
Definition wellNamed (service : ServiceConfig.t) : Prop :=
  ServiceConfig.Name service ≠ EmptyString
  ∧ ServiceConfig.Type_ service ≠ EmptyString.

(** ** Sample inputs *)

Definition plainService (name type_ : string) : ServiceConfig.t :=
  ServiceConfig.mk name type_ "busybox" [] [] ∅ [] true.

Definition project (name : string) (services : list ServiceConfig.t)
    (variables : gmap string string) : ProjectConfig.t :=
  ProjectConfig.mk name ProjectTypeWebApp EmptyString "1.0.0" "development"
    services variables 0%Z 0%Z.

(** A project with no name and no service. *)
Definition emptyProject : ProjectConfig.t := project EmptyString [] ∅.

(** One service that mounts a host directory and declares no named volume. *)
Definition bindMountProject : ProjectConfig.t :=
  project "site"
    [ServiceConfig.mk "app" "web" EmptyString []
       [VolumeConfig.mk "./data" "/data" false "bind"] ∅ [] true]
    ∅.

(** Two services of the same name. *)
Definition twoDbProject : ProjectConfig.t :=
  project "shop" [plainService "db" "database"; plainService "db" "cache"] ∅.

(** A disabled service between two enabled ones. *)
Definition mixedProject : ProjectConfig.t :=
  project "mixed"
    [plainService "a" "web";
     ServiceConfig.mk "b" "cache" "redis" [] [] ∅ [] false;
     plainService "c" "api"]
    ∅.

(** A service with two environment entries, one of them a secret. *)
Definition secretProject : ProjectConfig.t :=
  project "vault"
    [ServiceConfig.mk "api" "api" "node" [] []
       (<["API_TOKEN" := "t0"]> {[ "PORT" := "8080" ]}) [] true]
    {[ "REGION" := "eu" ]}.

(** A service with two ordinary environment entries. *)
Definition twoEntriesProject : ProjectConfig.t :=
  project "pair"
    [ServiceConfig.mk "api" "api" "node" [] []
       (<["A" := "1"]> {[ "B" := "2" ]}) [] true]
    ∅.

(** A front end and a database. *)
Definition siteProject : ProjectConfig.t :=
  project "site" [plainService "ui" "Frontend"; plainService "db" "database"] ∅.

(** A catalog that knows the preset web-app. *)
Definition sampleManager : Manager.t :=
  Manager.mk
    (TemplateManager.mk
       {[ "web-app" :=
            Preset.mk "web-app" "Web app"
              "Basic web application with frontend, backend, and database"
              "Web Applications" [] ∅ [] ]}
       ∅).

(** A clock that advances by one at each reading. *)
Definition tickingClock : Clock := λ n, Z.of_nat n.

(** A marshaller that always succeeds, to run the Ansible generator. *)
Definition constMarshal : AnsibleInventory.t → string * option error :=
  λ _, ("all: {}", None).

(** * The rest of the packages *)

(** ** More of the Go runtime *)

Module GoSlices.

(** [s[:n]] and [s[n:]], for [n] within the length of [s]. *)
Fixpoint takeBytes (n : nat) (s : string) : string :=
  match n, s with
  | S n', String c s' => String c (takeBytes n' s')
  | _, _ => EmptyString
  end.

Fixpoint dropBytes (n : nat) (s : string) : string :=
  match n, s with
  | S n', String _ s' => dropBytes n' s'
  | _, _ => s
  end.

(** [s[i:j]] *)
Definition slice (i j : nat) (s : string) : string :=
  takeBytes (j - i) (dropBytes i s).

(** [strings.HasSuffix(s, suffix)] *)
Definition HasSuffix (s suffix : string) : bool :=
  (String.length suffix <=? String.length s)%nat
  && (dropBytes (String.length s - String.length suffix) s =? suffix)%string.

(** [strings.TrimSuffix(s, suffix)] *)
Definition TrimSuffix (s suffix : string) : string :=
  if HasSuffix s suffix
  then takeBytes (String.length s - String.length suffix) s
  else s.

End GoSlices.

(** ** internal/templates, the loading and the listing *)

Module DirEntry.
(** What the program reads of an [fs.DirEntry]. *)
Record t := mk { Name : string; IsDir : bool }.
End DirEntry.

Module WalkStep.
(** One call that [fs.WalkDir] makes to its function: the path, the entry
    and the error met on the way to it. *)
Record t := mk { path : string; d : DirEntry.t; err : option error }.
End WalkStep.

(** The places of the template manager that range over a catalog. *)
Inductive CatalogSite :=
| ListEmbedded
| ListCustom
| CategoryEmbedded
| CategoryCustom.

(** The order in which a run visits a catalog at each of these places. *)
Definition CatalogOrder :=
  CatalogSite → gmap string Preset.t → list (string * Preset.t).

Definition fairCatalogOrder (ω : CatalogOrder) : Prop :=
  ∀ site catalog, ω site catalog ≡ₚ map_to_list catalog.

Definition catalogKeyOrder : CatalogOrder := λ _ catalog, map_to_list catalog.

Module Templates.

(** The first byte of the name goes through [strings.ToUpper] on its own:
    the definition follows the source when that byte is ASCII
    ([asciiLead]). *)
Definition generatePresetName (filename : string) : string :=
  let name := GoSlices.TrimSuffix filename ".yaml" in
  let name := GoStrings.ReplaceAll name "-" " " in
  let name := GoStrings.ReplaceAll name "_" " " in
  if (0 <? String.length name)%nat
  then GoStrings.ToUpper (GoSlices.takeBytes 1 name) +:+ GoSlices.dropBytes 1 name
  else name.

Definition descriptions : gmap string string :=
  <["web-app" := "Basic web application with frontend, backend, and database"]>
    (<["microservice" := "Microservice architecture with API gateway and services"]>
       (<["database" := "Database services (PostgreSQL, MySQL, MongoDB)"]>
          (<["ml" := "Machine learning pipeline with model serving"]>
             {[ "infrastructure" :=
                  "Core infrastructure components (monitoring, logging)" ]}))).

Definition generatePresetDescription (filename : string) : string :=
  let base := GoSlices.TrimSuffix filename ".yaml" in
  match descriptions !! base with
  | Some desc => desc
  | None => base +:+ " project template"
  end.

Definition getCategoryFromPath (path : string) : string :=
  if GoStrings.Contains path "web" then "Web Applications"
  else if GoStrings.Contains path "database" then "Databases"
  else if GoStrings.Contains path "ml" then "Machine Learning"
  else if GoStrings.Contains path "infrastructure" then "Infrastructure"
  else "General".

(** The function that [loadEmbeddedTemplates] gives to [fs.WalkDir], with the
    catalog [tm.embedded] that it updates. *)
Definition visit (step : WalkStep.t) (embedded : gmap string Preset.t)
    : gmap string Preset.t * option error :=
  match WalkStep.err step with
  | Some err => (embedded, Some err)
  | None =>
      let d := WalkStep.d step in
      if DirEntry.IsDir d || negb (GoSlices.HasSuffix (WalkStep.path step) ".yaml")
      then (embedded, None)
      else
        let preset :=
          Preset.mk
            (GoSlices.TrimSuffix (DirEntry.Name d) ".yaml")
            (generatePresetName (DirEntry.Name d))
            (generatePresetDescription (DirEntry.Name d))
            (getCategoryFromPath (WalkStep.path step))
            [] ∅ [] in
        (<[Preset.ID preset := preset]> embedded, None)
  end.

(** [fs.WalkDir] over the bundled directory: the calls it makes are taken as
    given, in their order; it stops at the first call that returns an
    error. *)
Fixpoint loadEmbeddedTemplates (walk : list WalkStep.t)
    (embedded : gmap string Preset.t) : gmap string Preset.t * option error :=
  match walk with
  | [] => (embedded, None)
  | step :: rest =>
      match visit step embedded with
      | (embedded, Some err) => (embedded, Some err)
      | (embedded, None) => loadEmbeddedTemplates rest embedded
      end
  end.

(** A failed load is reported on the standard output and the manager is
    returned with what was loaded before the failure. *)
Definition NewTemplateManager (walk : list WalkStep.t) : TemplateManager.t :=
  TemplateManager.mk (loadEmbeddedTemplates walk ∅).1 ∅.

Definition ListPresets (ω : CatalogOrder) (tm : TemplateManager.t)
    : list Preset.t :=
  let presets : list Preset.t := [] in
  let presets :=
    foldl (λ presets kv, presets ++ [kv.2]) presets
      (ω ListEmbedded (TemplateManager.embedded tm)) in
  foldl (λ presets kv, presets ++ [kv.2]) presets
    (ω ListCustom (TemplateManager.custom tm)).

Definition ListPresetsByCategory (ω : CatalogOrder) (tm : TemplateManager.t)
    (category : string) : list Preset.t :=
  let presets : list Preset.t := [] in
  let presets :=
    foldl
      (λ presets kv,
         if (Preset.Category kv.2 =? category)%string then presets ++ [kv.2]
         else presets)
      presets (ω CategoryEmbedded (TemplateManager.embedded tm)) in
  foldl
    (λ presets kv,
       if (Preset.Category kv.2 =? category)%string then presets ++ [kv.2]
       else presets)
    presets (ω CategoryCustom (TemplateManager.custom tm)).

End Templates.

(** ** cmd *)

Module Cmd.

(** The conversions [string([]byte(key))] leave a byte string as it is. *)
Definition sensitiveKeywords : list string :=
  ["password"; "secret"; "key"; "token"; "auth"].

(** The inner loops of [containsSensitiveKeywords] for one keyword: the
    positions [0 .. len(key)-len(keyword)] are tried in turn. *)
Definition occursIn (key keyword : string) : bool :=
  if (String.length keyword <=? String.length key)%nat
  then
    existsb
      (λ i, (GoSlices.slice i (i + String.length keyword) key =? keyword)%string)
      (seq 0 (String.length key - String.length keyword + 1))
  else false.

Definition containsSensitiveKeywords (key : string) : bool :=
  existsb (occursIn key) sensitiveKeywords.

(** The map [categories] of [listPresets], once its first loop has run. *)
Definition groupByCategory (presets : list Preset.t) : gmap string (list Preset.t) :=
  foldl
    (λ categories preset,
       <[Preset.Category preset :=
           default [] (categories !! Preset.Category preset) ++ [preset]]> categories)
    ∅ presets.

(** The map [categories] of [listCategories], once its first loop has run. *)
Definition categoryCounts (presets : list Preset.t) : gmap string Z :=
  foldl
    (λ categories preset,
       <[Preset.Category preset :=
           (default 0 (categories !! Preset.Category preset) + 1)%Z]> categories)
    ∅ presets.

End Cmd.

(** ** More vocabulary *)

(** The entries of a service block, as text. *)
Definition portEntry (port : PortConfig.t) : string :=
  "      - " +:+ dquote
  +:+ (if (0 <? PortConfig.Host port)%Z
       then fmt.d (PortConfig.Host port) +:+ ":"
       else EmptyString)
  +:+ fmt.d (PortConfig.Container port) +:+ dquote
  +:+ (if isEmpty (PortConfig.Protocol port) then EmptyString
       else " # " +:+ PortConfig.Protocol port)
  +:+ nl.

Definition volumeEntry (volume : VolumeConfig.t) : string :=
  "      - " +:+ VolumeConfig.Source volume +:+ ":" +:+ VolumeConfig.Target volume
  +:+ (if VolumeConfig.ReadOnly volume then ":ro" else EmptyString)
  +:+ nl.

Definition environmentEntry (kv : string * string) : string :=
  "      " +:+ kv.1 +:+ ": " +:+ kv.2 +:+ nl.

Definition dependencyEntry (dep : string) : string :=
  "      - " +:+ dep +:+ nl.

(** A list under a heading, left out when the list is empty. *)
Definition listSection {A} (heading : string) (entry : A → string) (l : list A)
    : string :=
  match l with
  | [] => EmptyString
  | _ :: _ => heading +:+ nl +:+ concatStrings (map entry l)
  end.

(** The string of a port and of a volume among the playbook variables. *)
Definition portString (port : PortConfig.t) : string :=
  if (0 <? PortConfig.Host port)%Z
  then fmt.d (PortConfig.Host port) +:+ ":" +:+ fmt.d (PortConfig.Container port)
  else fmt.d (PortConfig.Container port).

Definition volumeString (volume : VolumeConfig.t) : string :=
  VolumeConfig.Source volume +:+ ":" +:+ VolumeConfig.Target volume.

(** The prefix of the playbook variables of a service. *)
Definition varPrefix (service : ServiceConfig.t) : string :=
  GoStrings.ReplaceAll (ServiceConfig.Name service) "-" "_".

(** The names of the four playbook variables of a service. *)
Definition serviceKeys (service : ServiceConfig.t) : list string :=
  [varPrefix service +:+ "_image"; varPrefix service +:+ "_ports";
   varPrefix service +:+ "_volumes"; varPrefix service +:+ "_enabled"].

(** What a service does to the variables: the body of the second loop of
    [generateVars]. *)
Definition setServiceVars (vars : gmap string VarValue) (service : ServiceConfig.t)
    : gmap string VarValue :=
  let prefix := GoStrings.ReplaceAll (ServiceConfig.Name service) "-" "_" in
  let vars := <[prefix +:+ "_image" := VarString (ServiceConfig.Image service)]> vars in
  let vars :=
    <[prefix +:+ "_ports" :=
        VarStrings (Ansible.extractPorts (ServiceConfig.Ports service))]> vars in
  let vars :=
    <[prefix +:+ "_volumes" :=
        VarStrings (Ansible.extractVolumes (ServiceConfig.Volumes service))]> vars in
  <[prefix +:+ "_enabled" := VarBool (ServiceConfig.Enabled service)]> vars.

(** The tasks that an enabled service brings to the playbook: a directory for
    each volume whose source is neither empty nor absolute, then the pull of
    the image when there is one. *)
Definition directoryTask (volume : VolumeConfig.t) : AnsibleTask.t :=
  AnsibleTask.mk
    ("Create directory for " +:+ VolumeConfig.Source volume +:+ " volume")
    "file" (VolumeConfig.Source volume) "directory".

Definition needsDirectory (volume : VolumeConfig.t) : bool :=
  negb (isEmpty (VolumeConfig.Source volume))
  && negb (GoStrings.HasPrefix (VolumeConfig.Source volume) "/").

Definition tasksOfService (service : ServiceConfig.t) : list AnsibleTask.t :=
  if ServiceConfig.Enabled service
  then
    map directoryTask
      (filter (λ volume, needsDirectory volume = true) (ServiceConfig.Volumes service))
    ++ (if isEmpty (ServiceConfig.Image service) then []
        else [AnsibleTask.mk
                ("Pull " +:+ ServiceConfig.Name service +:+ " Docker image")
                "docker_image" (ServiceConfig.Image service) "present"])
  else [].

Definition setupTasks : list AnsibleTask.t :=
  [AnsibleTask.mk "Update package cache" "apt" "apt" "present";
   AnsibleTask.mk "Install Docker" "package" "docker.io" "present";
   AnsibleTask.mk "Start and enable Docker service" "systemd" "docker" "started"].

Definition deployTasks : list AnsibleTask.t :=
  [AnsibleTask.mk "Create docker-compose.yml" "file"
     "/opt/{{ project_name }}/docker-compose.yml" "directory";
   AnsibleTask.mk "Deploy services with Docker Compose" "docker_compose"
     "/opt/{{ project_name }}" "present"].

(** The service of a project that a service of a preset becomes, with the
    environment given. *)
Definition serviceOfPreset (presetService : PresetService.t)
    (environment : gmap string string) : ServiceConfig.t :=
  ServiceConfig.mk
    (PresetService.Name presetService)
    (PresetService.Type_ presetService)
    (PresetService.Image presetService)
    (PresetService.Ports presetService)
    (PresetService.Volumes presetService)
    environment
    []
    (negb (PresetService.Optional presetService)).

(** The presets for which [loadPresetTemplateData] has services. *)
Definition presetsWithServices : list string :=
  ["web-app"; "microservice"; "database"].

(** A byte string with no lower-case ASCII letter. *)
Fixpoint noLowerCase (s : string) : Prop :=
  match s with
  | EmptyString => True
  | String c s' => GoStrings.isLower c = false ∧ noLowerCase s'
  end.

(** A playbook variable and a task, as the playbook writes them. *)
Definition varEntry (kv : string * VarValue) : string :=
  "    " +:+ kv.1 +:+ ": " +:+ Ansible.v kv.2 +:+ nl.

Definition taskLines (task : AnsibleTask.t) : string :=
  "    - name: " +:+ AnsibleTask.Name task +:+ nl
  +:+ "      " +:+ AnsibleTask.Module_ task +:+ ":" +:+ nl
  +:+ "        name: " +:+ AnsibleTask.Package task +:+ nl
  +:+ "        state: " +:+ AnsibleTask.State task +:+ nl.

(** The block of a service in the manifest, its environment listed in the
    order [entries]. *)
Definition blockText (entries : list (string * string)) (service : ServiceConfig.t)
    : string :=
  "  " +:+ ServiceConfig.Name service +:+ ":" +:+ nl
  +:+ (if isEmpty (ServiceConfig.Image service) then EmptyString
       else "    image: " +:+ ServiceConfig.Image service +:+ nl)
  +:+ listSection "    ports:" portEntry (ServiceConfig.Ports service)
  +:+ listSection "    volumes:" volumeEntry (ServiceConfig.Volumes service)
  +:+ listSection "    environment:" environmentEntry entries
  +:+ listSection "    depends_on:" dependencyEntry (ServiceConfig.DependsOn service)
  +:+ nl.

(** The manifest of a project, the environment of the service at position [i]
    listed in the order [order i]. *)
Definition manifestText (order : nat → gmap string string → list (string * string))
    (config : ProjectConfig.t) : string :=
  "services:" +:+ nl
  +:+ concatStrings
        (map (λ p, blockText (order p.1 (ServiceConfig.Environment p.2)) p.2)
           (filter (λ p, ServiceConfig.Enabled p.2 = true)
              (indexFrom 0 (ProjectConfig.Services config))))
  +:+ (if Docker.hasVolumes (ProjectConfig.Services config)
       then "volumes:" +:+ nl
            +:+ concatStrings
                  (map namedVolumeEntry (namedVolumes (ProjectConfig.Services config)))
       else EmptyString).

(** The contents of the files of the Docker generator: the manifest, then
    the .env file when it has a line. *)
Definition dockerContents (order : nat → gmap string string → list (string * string))
    (lines : list string) (config : ProjectConfig.t) : list string :=
  manifestText order config
  :: match lines with
     | [] => []
     | _ :: _ => [envFileText lines]
     end.

(** The playbook of a project, its variables listed in the order [entries]. *)
Definition playbookText (entries : list (string * VarValue)) (config : ProjectConfig.t)
    : string :=
  "---" +:+ nl
  +:+ "- hosts: all" +:+ nl
  +:+ "  become: true" +:+ nl
  +:+ "  name: Deploy " +:+ ProjectConfig.Name config +:+ nl
  +:+ listSection "  vars:" varEntry entries
  +:+ "  tasks:" +:+ nl
  +:+ concatStrings (map taskLines (Ansible.generateTasks config)).

(** The variables of the playbook: the project variables, then the four
    variables of each service, a later one replacing an earlier one of the
    same name. *)
Definition playbookVars (config : ProjectConfig.t) : gmap string VarValue :=
  foldl setServiceVars (VarString <$> ProjectConfig.Variables config)
    (ProjectConfig.Services config).

(** A hyphen or an underscore becomes a space. *)
Definition spaceOut (c : ascii) : ascii :=
  if (c =? "-")%char || (c =? "_")%char then " "%char else c.

(** A byte string with every hyphen and underscore replaced by a space. *)
Fixpoint spacedOut (s : string) : string :=
  match s with
  | EmptyString => EmptyString
  | String c s' => String (spaceOut c) (spacedOut s')
  end.

(** What holds of every preset of the catalog that the walk builds. *)
Definition loadedPreset (id : string) (preset : Preset.t) : Prop :=
  Preset.ID preset = id
  ∧ Preset.Description preset
    = match Templates.descriptions !! id with
      | Some desc => desc
      | None => id +:+ " project template"
      end
  ∧ Preset.Services preset = []
  ∧ Preset.Variables preset = ∅
  ∧ Preset.Tags preset = []
  ∧ Preset.Category preset ∈ ["Web Applications"; "Databases"; "Machine Learning"].

(** ** More sample inputs *)

(** A disabled service that declares a named volume. *)
Definition disabledProject : ProjectConfig.t :=
  project "idle"
    [ServiceConfig.mk "db" "database" "postgres" []
       [VolumeConfig.mk "data" "/var/lib/data" false "volume"] ∅ [] false]
    ∅.

(** Two services whose names differ by a hyphen and an underscore. *)
Definition clashProject : ProjectConfig.t :=
  project "clash"
    [ServiceConfig.mk "api-gw" "web" "one" [] [] ∅ [] true;
     ServiceConfig.mk "api_gw" "cache" "two" [PortConfig.mk 0 6379 "tcp"] [] ∅ [] false]
    ∅.

(** A project variable that takes the name of an inventory variable. *)
Definition shadowProject : ProjectConfig.t :=
  project "real" [plainService "a" "web"] {[ "project_name" := "other" ]}.

(** The walk of a bundled directory with two templates. *)
Definition sampleWalk : list WalkStep.t :=
  [WalkStep.mk "embedded" (DirEntry.mk "embedded" true) None;
   WalkStep.mk "embedded/infrastructure.yaml"
     (DirEntry.mk "infrastructure.yaml" false) None;
   WalkStep.mk "embedded/web-app.yaml" (DirEntry.mk "web-app.yaml" false) None].

(** * Properties *)

(** ** Byte strings *)

Section Strings.
Implicit Types s t u : string.

Lemma string_app_cons c s t : String c s +:+ t = String c (s +:+ t).
Proof. reflexivity. Qed.

Lemma string_app_nil_r s : s +:+ EmptyString = s.
Proof. induction s as [|c s IH]; [done|]. by rewrite string_app_cons, IH. Qed.

Lemma string_app_assoc s t u : (s +:+ t) +:+ u = s +:+ (t +:+ u).
Proof.
  induction s as [|c s IH]; [done|].
  by rewrite !string_app_cons, IH.
Qed.

Lemma string_app_length s t :
  String.length (s +:+ t) = String.length s + String.length t.
Proof.
  induction s as [|c s IH]; [done|].
  rewrite string_app_cons. simpl. by rewrite IH.
Qed.

Lemma string_app_eq_nil s t : s +:+ t = EmptyString → s = EmptyString ∧ t = EmptyString.
Proof. destruct s; [done|]. by rewrite string_app_cons. Qed.

Lemma prefix_spec p s : String.prefix p s = true ↔ ∃ rest, s = p +:+ rest.
Proof.
  revert s. induction p as [|a p IH]; intros s; simpl.
  - destruct s; split; eauto.
  - destruct s as [|b s]; simpl.
    + split; [done|]. intros [rest Hrest]. by rewrite string_app_cons in Hrest.
    + destruct (ascii_dec a b) as [->|Hne].
      * rewrite IH. split; intros [rest Hrest]; exists rest.
        -- by rewrite string_app_cons, Hrest.
        -- rewrite string_app_cons in Hrest. congruence.
      * split; [done|]. intros [rest Hrest].
        rewrite string_app_cons in Hrest. congruence.
Qed.

Lemma Contains_spec s w :
  GoStrings.Contains s w = true ↔ ∃ pre post, s = pre +:+ w +:+ post.
Proof.
  induction s as [|c s IH].
  - change (GoStrings.Contains EmptyString w) with (String.prefix w EmptyString || false).
    rewrite orb_true_iff, prefix_spec. split.
    + intros [[rest Hrest]|?]; [|done]. by exists EmptyString, rest.
    + intros (pre & post & Heq). left.
      symmetry in Heq. apply string_app_eq_nil in Heq as [-> Heq].
      apply string_app_eq_nil in Heq as [-> ->]. by exists EmptyString.
  - change (GoStrings.Contains (String c s) w)
      with (String.prefix w (String c s) || GoStrings.Contains s w).
    rewrite orb_true_iff, prefix_spec, IH. split.
    + intros [[rest Hrest]|(pre & post & Heq)].
      * by exists EmptyString, rest.
      * exists (String c pre), post. by rewrite string_app_cons, Heq.
    + intros (pre & post & Heq). destruct pre as [|c' pre].
      * left. by exists post.
      * right. rewrite string_app_cons in Heq. exists pre, post. congruence.
Qed.

Lemma mapBytes_app f s t :
  GoStrings.mapBytes f (s +:+ t) = GoStrings.mapBytes f s +:+ GoStrings.mapBytes f t.
Proof.
  induction s as [|c s IH]; [done|].
  rewrite string_app_cons. simpl. by rewrite IH, string_app_cons.
Qed.

Lemma mapBytes_app_inv f s a b :
  GoStrings.mapBytes f s = a +:+ b →
  ∃ s1 s2, s = s1 +:+ s2 ∧ GoStrings.mapBytes f s1 = a ∧ GoStrings.mapBytes f s2 = b.
Proof.
  revert s. induction a as [|c a IH]; intros s Heq.
  - by exists EmptyString, s.
  - destruct s as [|c' s]; [done|].
    rewrite string_app_cons in Heq. simpl in Heq.
    injection Heq as Hc Hs. destruct (IH _ Hs) as (s1 & s2 & -> & <- & <-).
    exists (String c' s1), s2. by rewrite <-Hc.
Qed.

Lemma lowerByte_upperByte c :
  GoStrings.lowerByte (GoStrings.upperByte c) = GoStrings.lowerByte c.
Proof. by destruct c as [[] [] [] [] [] [] [] []]. Qed.

Lemma upperByte_lowerByte c :
  GoStrings.upperByte (GoStrings.lowerByte c) = GoStrings.upperByte c.
Proof. by destruct c as [[] [] [] [] [] [] [] []]. Qed.

Lemma ToLower_ToUpper s : GoStrings.ToLower (GoStrings.ToUpper s) = GoStrings.ToLower s.
Proof.
  induction s as [|c s IH]; [done|].
  unfold GoStrings.ToLower, GoStrings.ToUpper in *. simpl.
  by rewrite lowerByte_upperByte, IH.
Qed.

Lemma ToUpper_ToLower s : GoStrings.ToUpper (GoStrings.ToLower s) = GoStrings.ToUpper s.
Proof.
  induction s as [|c s IH]; [done|].
  unfold GoStrings.ToLower, GoStrings.ToUpper in *. simpl.
  by rewrite upperByte_lowerByte, IH.
Qed.

(** A letter pair is a lower-case letter of the model with its upper-case
    form. *)
Lemma letterPairs_spec (lower upper : ascii) :
  (lower, upper) ∈ letterPairs →
  GoStrings.lowerByte lower = lower
  ∧ GoStrings.lowerByte upper = lower
  ∧ upper = GoStrings.upperByte lower.
Proof.
  intros Hin. unfold letterPairs, lowerLetters, upperLetters in Hin. simpl in Hin.
  repeat (apply elem_of_cons in Hin as [[= -> ->]|Hin]; [by vm_compute|]).
  by apply elem_of_nil in Hin.
Qed.

Lemma lowerByte_cases c :
  GoStrings.lowerByte c = c ∨ (GoStrings.lowerByte c, c) ∈ letterPairs.
Proof.
  destruct c as [[] [] [] [] [] [] [] []];
    first [by left | right; apply (bool_decide_unpack _); by vm_compute].
Qed.

(** The lower-case mapping of the model identifies exactly the bytes that
    are the same up to case. *)
Lemma lowerByte_same c d :
  GoStrings.lowerByte c = GoStrings.lowerByte d ↔ sameByteIgnoringCase c d.
Proof.
  unfold sameByteIgnoringCase. split.
  - intros Heq.
    destruct (lowerByte_cases c) as [Hc|Hc], (lowerByte_cases d) as [Hd|Hd].
    + left. congruence.
    + right. left. rewrite <-Heq, Hc in Hd. exact Hd.
    + right. right. rewrite Heq, Hd in Hc. exact Hc.
    + left. apply letterPairs_spec in Hc as (_ & _ & ->).
      apply letterPairs_spec in Hd as (_ & _ & ->). by rewrite Heq.
  - intros [->|[Hin|Hin]]; [done|..];
      apply letterPairs_spec in Hin as (? & ? & _); congruence.
Qed.

(** The upper-case mapping of the model is the one of the alphabet. *)
Lemma upperByte_upperOf c : GoStrings.upperByte c = upperOf c.
Proof. by destruct c as [[] [] [] [] [] [] [] []]; vm_compute. Qed.


Lemma sameIgnoringCase_lower s t :
  sameIgnoringCase s t ↔ GoStrings.ToLower s = GoStrings.ToLower t.
Proof.
  unfold GoStrings.ToLower. revert t.
  induction s as [|c s IH]; intros [|d t]; simpl; [done|done|done|].
  rewrite IH, <-lowerByte_same. split.
  - by intros [-> ->].
  - intros Heq. by injection Heq.
Qed.

Lemma sameIgnoringCase_upper s t :
  sameIgnoringCase s t ↔ GoStrings.ToUpper s = GoStrings.ToUpper t.
Proof.
  rewrite sameIgnoringCase_lower. split; intros Heq.
  - by rewrite <-(ToUpper_ToLower s), Heq, ToUpper_ToLower.
  - by rewrite <-(ToLower_ToUpper s), Heq, ToLower_ToUpper.
Qed.


(** The test of [generateEnvFile] is containment up to case, too. *)
Lemma Contains_ToUpper s w :
  GoStrings.Contains (GoStrings.ToUpper s) (GoStrings.ToUpper w) = true
  ↔ containsIgnoringCase s w.
Proof.
  rewrite Contains_spec. unfold containsIgnoringCase.
  setoid_rewrite sameIgnoringCase_upper. split.
  - intros (pre & post & Heq).
    apply mapBytes_app_inv in Heq as (s1 & s' & -> & <- & Heq).
    apply mapBytes_app_inv in Heq as (s2 & s3 & -> & Hmid & <-).
    by exists s1, s2, s3.
  - intros (pre & mid & post & -> & Hmid).
    exists (GoStrings.ToUpper pre), (GoStrings.ToUpper post).
    unfold GoStrings.ToUpper in *. by rewrite !mapBytes_app, Hmid.
Qed.

End Strings.

(** ** The validation accumulator *)

Section Accumulator.
Import ValidationErrors_.

Lemma isEmpty_true s : isEmpty s = true ↔ s = EmptyString.
Proof. unfold isEmpty. apply String.eqb_eq. Qed.

Lemma isEmpty_false s : isEmpty s = false ↔ s ≠ EmptyString.
Proof. unfold isEmpty. apply String.eqb_neq. Qed.

Lemma HasErrors_false ve : HasErrors ve = false ↔ ve = [].
Proof. destruct ve; unfold HasErrors; simpl; split; done. Qed.

Lemma HasErrors_elem e ve : e ∈ ve → HasErrors ve = true.
Proof. destruct ve; [by intros ?%elem_of_nil|done]. Qed.

(** A service adds its errors at the end of the collection. *)
Lemma validateService_app i service errors :
  Docker.validateService i service errors
  = errors ++ Docker.validateService i service [].
Proof.
  unfold Docker.validateService, Add.
  destruct (isEmpty (ServiceConfig.Name service)),
    (isEmpty (ServiceConfig.Type_ service)); simpl;
    by rewrite ?app_nil_r, <-?app_assoc.
Qed.

Lemma validateServices_app services : ∀ i errors,
  forRange Docker.validateService i services errors
  = errors ++ forRange Docker.validateService i services [].
Proof.
  induction services as [|service services IH]; intros i errors; simpl.
  - by rewrite app_nil_r.
  - rewrite IH, (IH _ (Docker.validateService i service [])).
    by rewrite (validateService_app i service errors), app_assoc.
Qed.

Lemma validateService_nil i service :
  Docker.validateService i service [] = [] ↔ wellNamed service.
Proof.
  unfold Docker.validateService, Add, wellNamed.
  rewrite <-!isEmpty_false.
  destruct (isEmpty (ServiceConfig.Name service)),
    (isEmpty (ServiceConfig.Type_ service)); simpl; split; intros H;
    try done; by destruct H.
Qed.

Lemma validateServices_nil services : ∀ i,
  forRange Docker.validateService i services [] = [] ↔ Forall wellNamed services.
Proof.
  induction services as [|service services IH]; intros i; simpl.
  - split; [by constructor|done].
  - rewrite validateServices_app, Forall_cons, <-(IH (S i)),
      <-(validateService_nil i). split.
    + by intros [??]%app_eq_nil.
    + by intros [-> ->].
Qed.

(** The validation of a generator succeeds exactly on a named project with
    at least one service, all of them with a name and a type. *)
Lemma Docker_Validate_None config :
  Docker.Validate config = None
  ↔ ProjectConfig.Name config ≠ EmptyString
    ∧ ProjectConfig.Services config ≠ []
    ∧ Forall wellNamed (ProjectConfig.Services config).
Proof.
  unfold Docker.Validate, Add. rewrite <-isEmpty_false.
  rewrite validateServices_app, <-(validateServices_nil _ 0).
  destruct (isEmpty (ProjectConfig.Name config));
    destruct (ProjectConfig.Services config) as [|service services] eqn:Hs;
    simpl length; cbv iota beta; simpl Nat.eqb; cbv iota.
  - split; [done|]. by intros [? _].
  - split; [done|]. by intros [? _].
  - split; [done|]. by intros (_ & ? & _).
  - rewrite app_nil_l.
    destruct (forRange Docker.validateService 0 (service :: services) []) eqn:Hv.
    + by split.
    + split; [done|]. by intros (_ & _ & ?).
Qed.

(** *** Duplicate names *)

Lemma checkDuplicate_keeps services : ∀ seen errors e,
  e ∈ errors → e ∈ (foldl Manager.checkDuplicate (seen, errors) services).2.
Proof.
  induction services as [|service services IH]; intros seen errors e He; [done|].
  simpl. apply IH. unfold Add.
  destruct (default false (seen !! ServiceConfig.Name service)); [|done].
  apply elem_of_app. by left.
Qed.

Lemma checkDuplicate_seen services : ∀ seen errors service,
  service ∈ services →
  seen !! ServiceConfig.Name service = Some true →
  duplicateError (ServiceConfig.Name service)
  ∈ (foldl Manager.checkDuplicate (seen, errors) services).2.
Proof.
  induction services as [|first services IH]; intros seen errors service Hin Hseen.
  - by apply elem_of_nil in Hin.
  - simpl. apply elem_of_cons in Hin as [<-|Hin].
    + apply checkDuplicate_keeps. rewrite Hseen. simpl. unfold Add.
      apply elem_of_app. right. by apply list_elem_of_singleton.
    + apply IH; [done|].
      destruct (decide (ServiceConfig.Name first = ServiceConfig.Name service)) as [->|Hne].
      * by rewrite lookup_insert_eq.
      * by rewrite lookup_insert_ne.
Qed.

Lemma checkDuplicate_pair services : ∀ seen errors i j si sj,
  i < j →
  services !! i = Some si → services !! j = Some sj →
  ServiceConfig.Name si = ServiceConfig.Name sj →
  duplicateError (ServiceConfig.Name si)
  ∈ (foldl Manager.checkDuplicate (seen, errors) services).2.
Proof.
  induction services as [|first services IH];
    intros seen errors i j si sj Hlt Hi Hj Hname; [done|].
  destruct j as [|j]; [lia|]. simpl in Hj. destruct i as [|i].
  - simpl in Hi. injection Hi as ->. simpl. rewrite Hname.
    apply checkDuplicate_seen.
    + by eapply list_elem_of_lookup_2.
    + by rewrite <-Hname, lookup_insert_eq.
  - simpl in Hi. simpl. eapply (IH _ _ i j); [lia|done..].
Qed.

End Accumulator.

(** ** Validation *)

(** C4. On a project with an empty name and no service, the validation of a
    generator returns a collection with exactly two entries, the first on the
    field name and the second on the field services: both violations are
    recorded in one pass. *)
Theorem Validate_accumulates config :
  ProjectConfig.Name config = EmptyString →
  ProjectConfig.Services config = [] →
  ∃ errors e1 e2,
    Docker.Validate config = Some (ErrValidation errors)
    ∧ Ansible.Validate config = Some (ErrValidation errors)
    ∧ errors = [e1; e2]
    ∧ e1 ≠ e2
    ∧ e1 = ValidationError.mk "name" "project name is required" (VString EmptyString)
    ∧ e2 = ValidationError.mk "services" "at least one service is required" (VInt 0).
Proof.
  intros Hname Hservices. do 3 eexists.
  unfold Docker.Validate, Ansible.Validate. rewrite Hname, Hservices. simpl.
  repeat split; done.
Qed.

Lemma Validate_accumulates_witness :
  ∃ errors e1 e2,
    Docker.Validate emptyProject = Some (ErrValidation errors)
    ∧ Ansible.Validate emptyProject = Some (ErrValidation errors)
    ∧ errors = [e1; e2]
    ∧ e1 ≠ e2
    ∧ e1 = ValidationError.mk "name" "project name is required" (VString EmptyString)
    ∧ e2 = ValidationError.mk "services" "at least one service is required" (VInt 0).
Proof. apply (Validate_accumulates emptyProject); reflexivity. Defined.

(** C10. The two generators validate alike: on every project both return the
    same outcome, with the same errors in the same order; and they succeed
    exactly when the project has a name and at least one service, and every
    service has a name and a type. *)
Theorem Validate_docker_ansible config :
  Docker.Validate config = Ansible.Validate config
  ∧ (Docker.Validate config = None
     ↔ ProjectConfig.Name config ≠ EmptyString
       ∧ ProjectConfig.Services config ≠ []
       ∧ Forall wellNamed (ProjectConfig.Services config)).
Proof. split; [reflexivity|apply Docker_Validate_None]. Qed.

(** C3. When validation fails, [Generate] returns the error of [Validate]
    and no file, for the Docker generator and for the Ansible generator. *)
Theorem Generate_propagates_validation yamlMarshal σ config err :
  (Docker.Validate config = Some err → Docker.Generate σ config = ([], Some err))
  ∧ (Ansible.Validate config = Some err →
     Ansible.Generate yamlMarshal σ config = ([], Some err)).
Proof.
  split; intros Hv.
  - unfold Docker.Generate. by rewrite Hv.
  - unfold Ansible.Generate. by rewrite Hv.
Qed.

Lemma Generate_propagates_validation_witness :
  let err :=
    ErrValidation
      [ValidationError.mk "name" "project name is required" (VString EmptyString);
       ValidationError.mk "services" "at least one service is required" (VInt 0)] in
  Docker.Generate keyOrder emptyProject = ([], Some err)
  ∧ Ansible.Generate constMarshal keyOrder emptyProject = ([], Some err).
Proof.
  intros err. split.
  - apply (proj1 (Generate_propagates_validation constMarshal keyOrder emptyProject err)).
    reflexivity.
  - apply (proj2 (Generate_propagates_validation constMarshal keyOrder emptyProject err)).
    reflexivity.
Defined.

(** C6. When two services of a project carry the same name, whole-project
    validation fails, and its collection holds an error on the field services
    whose message and value name the repeated service. *)
Theorem ValidateProject_duplicate config i j si sj :
  i ≠ j →
  ProjectConfig.Services config !! i = Some si →
  ProjectConfig.Services config !! j = Some sj →
  ServiceConfig.Name si = ServiceConfig.Name sj →
  ∃ errors e,
    Manager.ValidateProject config = Some (ErrValidation errors)
    ∧ e ∈ errors
    ∧ ValidationError.Field e = "services"
    ∧ ValidationError.Message e = "duplicate service name: " +:+ ServiceConfig.Name si
    ∧ ValidationError.Value_ e = VString (ServiceConfig.Name si).
Proof.
  intros Hij Hi Hj Hname. unfold Manager.ValidateProject.
  set (errors0 := forRange Manager.validateService 0 _ _).
  assert (duplicateError (ServiceConfig.Name si)
          ∈ (foldl Manager.checkDuplicate (∅, errors0) (ProjectConfig.Services config)).2)
    as Hdup.
  { destruct (decide (i < j)).
    - by eapply (checkDuplicate_pair _ _ _ i j).
    - rewrite Hname. eapply (checkDuplicate_pair _ _ _ j i); [lia|done..]. }
  destruct (foldl Manager.checkDuplicate (∅, errors0) (ProjectConfig.Services config))
    as [seen errors]. simpl in Hdup.
  exists errors, (duplicateError (ServiceConfig.Name si)).
  by rewrite (HasErrors_elem _ _ Hdup).
Qed.

Lemma ValidateProject_duplicate_witness :
  ∃ errors e,
    Manager.ValidateProject twoDbProject = Some (ErrValidation errors)
    ∧ e ∈ errors
    ∧ ValidationError.Field e = "services"
    ∧ ValidationError.Message e = "duplicate service name: db"
    ∧ ValidationError.Value_ e = VString "db".
Proof.
  apply (ValidateProject_duplicate twoDbProject 0 1
           (plainService "db" "database") (plainService "db" "cache"));
    [lia|reflexivity..].
Defined.

(** ** The builder only appends *)

Section Frames.

Lemma foldl_frame {A} (w : Builder → A → Builder) :
  (∀ b x a, w (b +:+ x) a = b +:+ w x a) →
  ∀ l b x, foldl w (b +:+ x) l = b +:+ foldl w x l.
Proof.
  intros Hw l. induction l as [|a l IH]; intros b x; simpl; [done|].
  by rewrite Hw, IH.
Qed.

Lemma forRange_frame {A} (w : nat → A → Builder → Builder) :
  (∀ i a b x, w i a (b +:+ x) = b +:+ w i a x) →
  ∀ l i b x, forRange w i l (b +:+ x) = b +:+ forRange w i l x.
Proof.
  intros Hw l. induction l as [|a l IH]; intros i b x; simpl; [done|].
  by rewrite Hw, IH.
Qed.

Ltac frame_writer :=
  unfold WriteString; rewrite ?string_app_assoc; reflexivity.

Lemma writePort_frame b x port :
  Docker.writePort (b +:+ x) port = b +:+ Docker.writePort x port.
Proof.
  unfold Docker.writePort.
  destruct (0 <? PortConfig.Host port)%Z, (isEmpty (PortConfig.Protocol port));
    simpl negb; cbv iota; frame_writer.
Qed.

Lemma writeVolume_frame b x volume :
  Docker.writeVolume (b +:+ x) volume = b +:+ Docker.writeVolume x volume.
Proof.
  unfold Docker.writeVolume.
  destruct (VolumeConfig.ReadOnly volume); frame_writer.
Qed.

Lemma writeEnvironment_frame b x kv :
  Docker.writeEnvironment (b +:+ x) kv = b +:+ Docker.writeEnvironment x kv.
Proof. unfold Docker.writeEnvironment. frame_writer. Qed.

Lemma writeDependency_frame b x dep :
  Docker.writeDependency (b +:+ x) dep = b +:+ Docker.writeDependency x dep.
Proof. unfold Docker.writeDependency. frame_writer. Qed.

Lemma writeNamedVolume_frame b x volume :
  Docker.writeNamedVolume (b +:+ x) volume = b +:+ Docker.writeNamedVolume x volume.
Proof.
  unfold Docker.writeNamedVolume.
  destruct (VolumeConfig.Type_ volume =? "volume")%string; frame_writer.
Qed.

Lemma writeNamedVolumes_frame b x service :
  Docker.writeNamedVolumes (b +:+ x) service = b +:+ Docker.writeNamedVolumes x service.
Proof. apply foldl_frame, writeNamedVolume_frame. Qed.

Ltac pull_prefix :=
  unfold WriteString;
  repeat first
    [ rewrite string_app_assoc
    | rewrite (foldl_frame _ writePort_frame)
    | rewrite (foldl_frame _ writeVolume_frame)
    | rewrite (foldl_frame _ writeEnvironment_frame)
    | rewrite (foldl_frame _ writeDependency_frame) ].

Lemma writeService_frame σ i service b x :
  Docker.writeService σ i service (b +:+ x) = b +:+ Docker.writeService σ i service x.
Proof.
  unfold Docker.writeService.
  destruct (ServiceConfig.Enabled service); simpl negb; cbv iota; [|done].
  destruct (isEmpty (ServiceConfig.Image service)),
    (0 <? length (ServiceConfig.Ports service))%nat,
    (0 <? length (ServiceConfig.Volumes service))%nat,
    (0 <? size (ServiceConfig.Environment service))%nat,
    (0 <? length (ServiceConfig.DependsOn service))%nat;
    simpl negb; cbv iota; pull_prefix; reflexivity.
Qed.

(** An enabled service opens its block with its name. *)
Lemma serviceBlock_enabled σ p :
  ServiceConfig.Enabled p.2 = true →
  ∃ body,
    serviceBlock σ p = "  " +:+ ServiceConfig.Name p.2 +:+ ":" +:+ nl +:+ body.
Proof.
  intros Hen. unfold serviceBlock, Docker.writeService. rewrite Hen.
  simpl negb; cbv iota.
  destruct (isEmpty (ServiceConfig.Image p.2)),
    (0 <? length (ServiceConfig.Ports p.2))%nat,
    (0 <? length (ServiceConfig.Volumes p.2))%nat,
    (0 <? size (ServiceConfig.Environment p.2))%nat,
    (0 <? length (ServiceConfig.DependsOn p.2))%nat;
    simpl negb; cbv iota; pull_prefix; eexists; reflexivity.
Qed.

(** A disabled service leaves nothing. *)
Lemma serviceBlock_disabled σ p :
  ServiceConfig.Enabled p.2 = false → serviceBlock σ p = EmptyString.
Proof. intros Hdis. unfold serviceBlock, Docker.writeService. by rewrite Hdis. Qed.

Lemma writeServices_blocks σ services : ∀ i b,
  forRange (Docker.writeService σ) i services b
  = b +:+ concatStrings
            (map (serviceBlock σ)
               (filter (λ p, ServiceConfig.Enabled p.2 = true) (indexFrom i services))).
Proof.
  induction services as [|service services IH]; intros i b; simpl.
  - by rewrite string_app_nil_r.
  - rewrite IH. destruct (ServiceConfig.Enabled service) eqn:Hen.
    + rewrite filter_cons_True by done. simpl.
      rewrite <-(string_app_nil_r b) at 1.
      by rewrite writeService_frame, string_app_assoc.
    + rewrite filter_cons_False by (simpl; congruence).
      unfold Docker.writeService. by rewrite Hen.
Qed.

Lemma enabled_indexFrom services : ∀ i,
  map snd
    (filter (λ p, ServiceConfig.Enabled p.2 = true) (indexFrom i services))
  = filter (λ service, ServiceConfig.Enabled service = true) services.
Proof.
  induction services as [|service services IH]; intros i; simpl; [done|].
  destruct (ServiceConfig.Enabled service) eqn:Hen.
  - rewrite !filter_cons_True by done. simpl. by rewrite IH.
  - rewrite !filter_cons_False by (simpl; congruence). apply IH.
Qed.

Lemma writeVolumesSection_frame services b :
  Docker.writeVolumesSection services b = b +:+ volumesSection services.
Proof.
  unfold volumesSection, Docker.writeVolumesSection.
  destruct (Docker.hasVolumes services); [|by rewrite string_app_nil_r].
  unfold WriteString.
  by rewrite (foldl_frame _ writeNamedVolumes_frame).
Qed.

(** The manifest: the heading, the blocks of the enabled services in the
    order of the service list, and the named-volumes section. *)
Lemma generateComposeYAML_blocks σ config :
  Docker.generateComposeYAML σ config
  = ("services:" +:+ nl
       +:+ concatStrings
             (map (serviceBlock σ)
                (filter (λ p, ServiceConfig.Enabled p.2 = true)
                   (indexFrom 0 (ProjectConfig.Services config))))
       +:+ volumesSection (ProjectConfig.Services config),
     None).
Proof.
  unfold Docker.generateComposeYAML. f_equal.
  rewrite writeVolumesSection_frame, writeServices_blocks.
  unfold WriteString. by rewrite !string_app_assoc.
Qed.

End Frames.

(** ** The container manifest *)

Section Manifest.

(** What [Generate] returns once validation has passed. *)
Lemma Docker_Generate_valid σ config :
  Docker.Validate config = None →
  Docker.Generate σ config
  = (GeneratedFile.mk "docker-compose.yml" (Docker.generateComposeYAML σ config).1
       TargetDocker "utf-8"
     :: (if isEmpty (Docker.generateEnvFile σ config) then []
         else [GeneratedFile.mk ".env" (Docker.generateEnvFile σ config)
                 TargetDocker "utf-8"]),
     None).
Proof.
  intros Hv. unfold Docker.Generate. rewrite Hv.
  rewrite generateComposeYAML_blocks. simpl.
  by destruct (isEmpty (Docker.generateEnvFile σ config)).
Qed.

Lemma hasVolumes_spec services :
  Docker.hasVolumes services = true
  ↔ ∃ service, service ∈ services ∧ ServiceConfig.Volumes service ≠ [].
Proof.
  induction services as [|service services IH]; simpl.
  - split; [done|]. intros (? & []%elem_of_nil & _).
  - destruct (ServiceConfig.Volumes service) as [|volume volumes] eqn:Hvol; simpl.
    + rewrite IH. split.
      * intros (s & Hin & Hne). exists s. split; [by apply elem_of_cons; right|done].
      * intros (s & [->|Hin]%elem_of_cons & Hne); [congruence|by exists s].
    + split; [|done]. intros _. exists service.
      split; [by apply elem_of_cons; left|by rewrite Hvol].
Qed.

Lemma writeNamedVolume_entries volumes : ∀ b,
  foldl Docker.writeNamedVolume b volumes
  = b +:+ concatStrings
            (map namedVolumeEntry
               (filter (λ volume, VolumeConfig.Type_ volume = "volume") volumes)).
Proof.
  induction volumes as [|volume volumes IH]; intros b; simpl.
  - by rewrite string_app_nil_r.
  - rewrite IH. unfold Docker.writeNamedVolume.
    destruct (String.eqb_spec (VolumeConfig.Type_ volume) "volume") as [Heq|Hne].
    + rewrite filter_cons_True by done. simpl.
      unfold WriteString, namedVolumeEntry. by rewrite !string_app_assoc.
    + by rewrite filter_cons_False by done.
Qed.

Lemma writeNamedVolumes_entries services : ∀ b,
  foldl Docker.writeNamedVolumes b services
  = b +:+ concatStrings (map namedVolumeEntry (namedVolumes services)).
Proof.
  induction services as [|service services IH]; intros b; simpl.
  - by rewrite string_app_nil_r.
  - rewrite IH. unfold Docker.writeNamedVolumes.
    rewrite writeNamedVolume_entries, string_app_assoc. f_equal.
    unfold namedVolumes. simpl. rewrite map_app.
    generalize (map namedVolumeEntry
                  (filter (λ volume, VolumeConfig.Type_ volume = "volume")
                     (ServiceConfig.Volumes service))).
    intros l. induction l as [|s l IHl]; simpl; [done|].
    by rewrite string_app_assoc, IHl.
Qed.

(** The named-volumes section as the code writes it: the heading stands as
    soon as some service has a volume of any kind; under it, one entry for each
    declaration of kind volume, repeated when the declaration is. *)
Lemma volumesSection_spec services :
  volumesSection services
  = if Docker.hasVolumes services
    then "volumes:" +:+ nl
           +:+ concatStrings (map namedVolumeEntry (namedVolumes services))
    else EmptyString.
Proof.
  unfold volumesSection, Docker.writeVolumesSection.
  destruct (Docker.hasVolumes services); [|done].
  by rewrite writeNamedVolumes_entries.
Qed.

(** The heading of the section stands exactly when some service has a
    volume, of whatever kind. *)
Lemma volumesSection_heading services :
  (∃ entries, volumesSection services = "volumes:" +:+ nl +:+ entries)
  ↔ ∃ service, service ∈ services ∧ ServiceConfig.Volumes service ≠ [].
Proof.
  rewrite <-hasVolumes_spec, volumesSection_spec.
  destruct (Docker.hasVolumes services).
  - split; [done|]. intros _. by eexists.
  - split; [|done]. by intros [entries ?].
Qed.

End Manifest.

(** C2. The manifest that [Generate] returns is the heading, then one block
    for each enabled service, in the order of the service list, then the
    named-volumes section; a block opens with the name of its service, and a
    disabled service writes nothing. *)
Theorem manifest_service_blocks σ config :
  Docker.Validate config = None →
  ∃ manifest rest enabled,
    Docker.Generate σ config
    = (GeneratedFile.mk "docker-compose.yml" manifest TargetDocker "utf-8" :: rest, None)
    ∧ enabled
      = filter (λ p, ServiceConfig.Enabled p.2 = true)
          (indexFrom 0 (ProjectConfig.Services config))
    ∧ map snd enabled
      = filter (λ service, ServiceConfig.Enabled service = true)
          (ProjectConfig.Services config)
    ∧ manifest
      = "services:" +:+ nl
          +:+ concatStrings (map (serviceBlock σ) enabled)
          +:+ volumesSection (ProjectConfig.Services config)
    ∧ (∀ p, p ∈ enabled →
         ∃ body,
           serviceBlock σ p = "  " +:+ ServiceConfig.Name p.2 +:+ ":" +:+ nl +:+ body)
    ∧ (∀ i service b,
         ServiceConfig.Enabled service = false →
         Docker.writeService σ i service b = b).
Proof.
  intros Hv. eexists _, _, _.
  split; [by apply Docker_Generate_valid|].
  split; [reflexivity|].
  split; [apply enabled_indexFrom|].
  split; [by rewrite generateComposeYAML_blocks|].
  split.
  - intros p [Hen _]%list_elem_of_filter. by apply serviceBlock_enabled.
  - intros i service b Hdis. unfold Docker.writeService. by rewrite Hdis.
Qed.

Lemma manifest_service_blocks_witness :
  ∃ manifest rest enabled,
    Docker.Generate keyOrder mixedProject
    = (GeneratedFile.mk "docker-compose.yml" manifest TargetDocker "utf-8" :: rest, None)
    ∧ enabled
      = filter (λ p, ServiceConfig.Enabled p.2 = true)
          (indexFrom 0 (ProjectConfig.Services mixedProject))
    ∧ map snd enabled
      = filter (λ service, ServiceConfig.Enabled service = true)
          (ProjectConfig.Services mixedProject)
    ∧ manifest
      = "services:" +:+ nl
          +:+ concatStrings (map (serviceBlock keyOrder) enabled)
          +:+ volumesSection (ProjectConfig.Services mixedProject)
    ∧ (∀ p, p ∈ enabled →
         ∃ body,
           serviceBlock keyOrder p
           = "  " +:+ ServiceConfig.Name p.2 +:+ ":" +:+ nl +:+ body)
    ∧ (∀ i service b,
         ServiceConfig.Enabled service = false →
         Docker.writeService keyOrder i service b = b).
Proof. apply (manifest_service_blocks keyOrder mixedProject). reflexivity. Defined.

(** The manifest of the sample project with a disabled service in the middle. *)
Example manifest_mixedProject :
  (Docker.generateComposeYAML keyOrder mixedProject).1
  = "services:" +:+ nl
    +:+ "  a:" +:+ nl
    +:+ "    image: busybox" +:+ nl
    +:+ nl
    +:+ "  c:" +:+ nl
    +:+ "    image: busybox" +:+ nl
    +:+ nl.
Proof. vm_compute. reflexivity. Qed.

(** C1. On a project whose only volume is a bind mount, no declaration has
    the kind volume, and yet the manifest ends with the heading of the
    named-volumes section, followed by no entry. *)
Theorem volumes_heading_without_named_volume :
  namedVolumes (ProjectConfig.Services bindMountProject) = []
  ∧ volumesSection (ProjectConfig.Services bindMountProject) = "volumes:" +:+ nl
  ∧ Docker.generateComposeYAML keyOrder bindMountProject
    = ("services:" +:+ nl
       +:+ "  app:" +:+ nl
       +:+ "    volumes:" +:+ nl
       +:+ "      - ./data:/data" +:+ nl
       +:+ nl
       +:+ "volumes:" +:+ nl,
       None).
Proof.
  split; [|split].
  - vm_compute. reflexivity.
  - rewrite volumesSection_spec. vm_compute. reflexivity.
  - rewrite generateComposeYAML_blocks. vm_compute. reflexivity.
Qed.

(** ** The environment file *)

Section EnvFile.

Lemma looksExternal_spec key : Docker.looksExternal key = true ↔ sensitiveKey key.
Proof.
  unfold Docker.looksExternal, sensitiveKey.
  change "PASSWORD" with (GoStrings.ToUpper "PASSWORD") at 1.
  change "SECRET" with (GoStrings.ToUpper "SECRET") at 1.
  change "KEY" with (GoStrings.ToUpper "KEY") at 1.
  change "TOKEN" with (GoStrings.ToUpper "TOKEN") at 1.
  rewrite !orb_true_iff, !Contains_ToUpper. split.
  - intros [[[H|H]|H]|H]; eexists; (split; [|exact H]); set_solver.
  - intros (w & Hw & H).
    repeat (apply elem_of_cons in Hw as [->|Hw]; [by auto|]).
    by apply elem_of_nil in Hw.
Qed.

Lemma foldl_snoc_map {A B} (f : A → B) l : ∀ acc,
  foldl (λ acc x, acc ++ [f x]) acc l = acc ++ map f l.
Proof.
  induction l as [|x l IH]; intros acc; simpl.
  - by rewrite app_nil_r.
  - by rewrite IH, <-app_assoc.
Qed.

Lemma foldl_snoc_filter {A B} (p : A → bool) (f : A → B) l : ∀ acc,
  foldl (λ acc x, if p x then acc ++ [f x] else acc) acc l
  = acc ++ map f (filter (λ x, p x = true) l).
Proof.
  induction l as [|x l IH]; intros acc; simpl.
  - by rewrite app_nil_r.
  - rewrite IH. destruct (p x) eqn:Hp.
    + rewrite filter_cons_True by done. simpl. by rewrite <-app_assoc.
    + by rewrite filter_cons_False by congruence.
Qed.

Lemma envVars_services (σ : Schedule) services : ∀ i acc,
  forRange
    (λ i service envVars,
       foldl
         (λ envVars kv,
            if Docker.looksExternal kv.1
            then envVars ++ [Docker.serviceLine service kv]
            else envVars)
         envVars
         (σ _ (EnvFileEnvironment i) (ServiceConfig.Environment service)))
    i services acc
  = acc ++ flat_map (serviceLines σ) (indexFrom i services).
Proof.
  induction services as [|service services IH]; intros i acc; simpl.
  - by rewrite app_nil_r.
  - rewrite IH.
    rewrite (foldl_snoc_filter (λ kv, Docker.looksExternal kv.1)
               (Docker.serviceLine service)).
    by rewrite <-app_assoc.
Qed.

Lemma envVars_unfold (σ : Schedule) config :
  Docker.envVars σ config
  = map Docker.projectLine (σ _ EnvFileVariables (ProjectConfig.Variables config))
    ++ flat_map (serviceLines σ) (indexFrom 0 (ProjectConfig.Services config)).
Proof.
  unfold Docker.envVars.
  by rewrite envVars_services, (foldl_snoc_map Docker.projectLine).
Qed.

Lemma serviceLines_fair (σ : Schedule) services : fair σ → ∀ i,
  flat_map (serviceLines σ) (indexFrom i services)
  ≡ₚ flat_map
       (λ service,
          map
            (λ kv,
               GoStrings.ToUpper (ServiceConfig.Name service)
                 +:+ "_" +:+ kv.1 +:+ "=" +:+ kv.2)
            (filter (λ kv, Docker.looksExternal kv.1 = true)
               (map_to_list (ServiceConfig.Environment service))))
       services.
Proof.
  intros Hfair. induction services as [|service services IH]; intros i; simpl.
  - done.
  - apply Permutation_app; [|apply IH].
    unfold serviceLines. simpl. apply Permutation_map.
    by rewrite (Hfair _ (EnvFileEnvironment i) (ServiceConfig.Environment service)).
Qed.

(** Whatever the iteration order, the lines are the specified ones. *)
Lemma envVars_fair σ config :
  fair σ → Docker.envVars σ config ≡ₚ specifiedEnvLines config.
Proof.
  intros Hfair. rewrite envVars_unfold. unfold specifiedEnvLines.
  apply Permutation_app; [|by apply serviceLines_fair].
  apply Permutation_map, Hfair.
Qed.

Lemma generateEnvFile_cases σ config :
  Docker.generateEnvFile σ config
  = match Docker.envVars σ config with
    | [] => EmptyString
    | _ :: _ => GoStrings.Join (Docker.envVars σ config) nl +:+ nl
    end.
Proof. unfold Docker.generateEnvFile. by destruct (Docker.envVars σ config). Qed.

Lemma generateEnvFile_empty σ config :
  isEmpty (Docker.generateEnvFile σ config) = true ↔ Docker.envVars σ config = [].
Proof.
  rewrite generateEnvFile_cases, isEmpty_true.
  destruct (Docker.envVars σ config) as [|line lines]; [done|].
  split; [|done]. by intros [_ ?]%string_app_eq_nil.
Qed.

(** Lines joined by line feeds and ended by one are lines each followed by a
    line feed. *)
Lemma Join_lines line lines :
  GoStrings.Join (line :: lines) nl +:+ nl = envFileText (line :: lines).
Proof.
  unfold envFileText. revert line.
  induction lines as [|line' lines IH]; intros line.
  - simpl. by rewrite string_app_nil_r.
  - change (GoStrings.Join (line :: line' :: lines) nl)
      with (line +:+ nl +:+ GoStrings.Join (line' :: lines) nl).
    rewrite !string_app_assoc, IH. simpl. by rewrite !string_app_assoc.
Qed.



Lemma Docker_Generate_files σ config :
  Docker.Validate config = None →
  Docker.Generate σ config
  = (GeneratedFile.mk "docker-compose.yml"
       (Docker.generateComposeYAML σ config).1 TargetDocker "utf-8"
     :: match Docker.envVars σ config with
        | [] => []
        | _ :: _ =>
            [GeneratedFile.mk ".env" (envFileText (Docker.envVars σ config))
               TargetDocker "utf-8"]
        end,
     None).
Proof.
  intros Hv. rewrite (Docker_Generate_valid _ _ Hv).
  destruct (isEmpty (Docker.generateEnvFile σ config)) eqn:Hempty.
  - apply generateEnvFile_empty in Hempty. by rewrite Hempty.
  - rewrite generateEnvFile_cases in *.
    destruct (Docker.envVars σ config) as [|line lines]; [done|].
    by rewrite Join_lines.
Qed.

End EnvFile.

Lemma fair_keyOrder : fair keyOrder.
Proof. intros V site m. reflexivity. Qed.

Lemma fair_reverseOrder : fair reverseOrder.
Proof. intros V site m. apply reverse_Permutation. Qed.



(** The .env file of the sample project with a secret: the project variable
    and the secret, not the port. *)
Example env_file_secretProject :
  Docker.generateEnvFile keyOrder secretProject
  = "REGION=eu" +:+ nl +:+ "API_API_TOKEN=t0" +:+ nl.
Proof. vm_compute. reflexivity. Qed.

(** ** The inventory *)

Section Inventory.



End Inventory.



(** The two ends of the last property on sample projects. *)
Example inventory_groups_both :
  dom (AnsibleInventory.Children (Ansible.buildInventory keyOrder siteProject))
  = {[ "webservers"; "databases" ]}.
Proof. vm_compute. reflexivity. Qed.

(** A type in capitals with letters around the word. *)
Example someServiceOfType_capitals :
  someServiceOfType [plainService "ui" "My-FrontEnd-2"] ["web"; "frontend"; "nginx"].
Proof.
  exists (plainService "ui" "My-FrontEnd-2"), "frontend".
  split; [by apply list_elem_of_singleton|].
  split; [rewrite !elem_of_cons; auto|].
  exists "My-", "FrontEnd", "-2". split; [reflexivity|].
  by apply sameIgnoringCase_lower.
Qed.

Example inventory_groups_none :
  AnsibleInventory.Children
    (Ansible.buildInventory keyOrder (project "site" [plainService "q" "queue"] ∅))
  = ∅.
Proof. vm_compute. reflexivity. Qed.

(** ** Timestamps of a new project *)

(** C8, as the code has it.  A project made from a preset carries two
    successive readings of the clock: the creation time is the first, the
    update time the second; on a monotonic clock the creation time is not
    after the update time. *)
Theorem CreateProjectFromPreset_timestamps
    σ clock tick m presetID projectName environment config tick' :
  monotonic clock →
  Manager.CreateProjectFromPreset σ clock tick m presetID projectName environment
  = (inl config, tick') →
  ProjectConfig.CreatedAt config = clock tick
  ∧ ProjectConfig.UpdatedAt config = clock (S tick)
  ∧ tick' = S (S tick)
  ∧ (ProjectConfig.CreatedAt config ≤ ProjectConfig.UpdatedAt config)%Z.
Proof.
  intros Hmono. unfold Manager.CreateProjectFromPreset, Now.
  destruct (TemplateManager.GetPreset _ presetID) as [preset|err]; [|done].
  destruct (Manager.loadPresetTemplateData presetID) as [loaded|err]; [|done].
  intros [= <- <-]. simpl. repeat split. apply Hmono. lia.
Qed.

Lemma CreateProjectFromPreset_timestamps_witness :
  let config :=
    ProjectConfig.mk "blog" ProjectTypeWebApp EmptyString "1.0.0" "development"
      [] ∅ 0%Z 1%Z in
  ProjectConfig.CreatedAt config = tickingClock 0
  ∧ ProjectConfig.UpdatedAt config = tickingClock 1
  ∧ 2 = 2
  ∧ (ProjectConfig.CreatedAt config ≤ ProjectConfig.UpdatedAt config)%Z.
Proof.
  intros config.
  apply (CreateProjectFromPreset_timestamps keyOrder tickingClock 0
           (Manager.mk
              (TemplateManager.mk
                 {[ "custom" := Preset.mk "custom" "Custom" EmptyString "General" [] ∅ [] ]}
                 ∅))
           "custom" "blog" "development" config 2).
  - intros i j Hij. unfold tickingClock. lia.
  - vm_compute. reflexivity.
Defined.

(** C8, as the specification has it, fails: with a clock that advances between
    two readings, the project made from the preset web-app has a creation
    time before its update time. *)
Lemma CreateProjectFromPreset_timestamps_differ :
  ∃ config,
    (Manager.CreateProjectFromPreset keyOrder tickingClock 0 sampleManager
       "web-app" "blog" "development").1
    = inl config
    ∧ ProjectConfig.CreatedAt config ≠ ProjectConfig.UpdatedAt config.
Proof.
  eexists. split.
  - unfold Manager.CreateProjectFromPreset. simpl. reflexivity.
  - simpl. unfold tickingClock. lia.
Qed.

(** ** Runs that visit the maps in different orders *)

Section Orders.

Lemma foldl_insert_NoDup {V} (l : list (string * V)) : ∀ dst : gmap string V,
  NoDup l.*1 →
  foldl (λ acc kv, <[kv.1 := kv.2]> acc) dst l = list_to_map l ∪ dst.
Proof.
  induction l as [|[k v] l IH]; intros dst Hnd; simpl.
  - by rewrite (left_id_L ∅ (∪)).
  - apply NoDup_cons in Hnd as [Hk Hnd].
    rewrite IH by done. rewrite <-insert_union_l.
    symmetry. apply insert_union_r. by apply not_elem_of_list_to_map_1.
Qed.

(** Copying a map entry by entry gives the same map in every order. *)
Lemma copyInto_fair {V} σ site (src dst : gmap string V) :
  fair σ → copyInto σ site src dst = src ∪ dst.
Proof.
  intros Hfair. unfold copyInto.
  pose proof (Hfair V site src) as Hperm.
  assert (NoDup (σ V site src).*1) as Hnd.
  { rewrite Hperm. apply NoDup_fst_map_to_list. }
  rewrite foldl_insert_NoDup by done. f_equal.
  rewrite <-(list_to_map_to_list src) at 2.
  by apply list_to_map_proper.
Qed.

Lemma buildInventory_fair σ1 σ2 config :
  fair σ1 → fair σ2 →
  Ansible.buildInventory σ1 config = Ansible.buildInventory σ2 config.
Proof.
  intros H1 H2. unfold Ansible.buildInventory.
  by rewrite !copyInto_fair.
Qed.

Lemma Docker_Generate_labels σ config :
  fair σ →
  (Docker.Generate σ config).2 = Docker.Validate config
  ∧ map label (Docker.Generate σ config).1
    = match Docker.Validate config with
      | Some _ => []
      | None =>
          ("docker-compose.yml", TargetDocker, "utf-8")
          :: match specifiedEnvLines config with
             | [] => []
             | _ :: _ => [(".env", TargetDocker, "utf-8")]
             end
      end.
Proof.
  intros Hfair. destruct (Docker.Validate config) as [err|] eqn:Hv.
  - unfold Docker.Generate. by rewrite Hv.
  - pose proof (envVars_fair σ config Hfair) as Hperm.
    rewrite (Docker_Generate_valid _ _ Hv).
    simpl. split; [done|]. f_equal.
    destruct (isEmpty (Docker.generateEnvFile σ config)) eqn:Hempty.
    + apply generateEnvFile_empty in Hempty. rewrite Hempty in Hperm.
      by apply Permutation_nil_l in Hperm as <-.
    + destruct (specifiedEnvLines config); [|done].
      apply Permutation_nil_r in Hperm.
      apply generateEnvFile_empty in Hperm. congruence.
Qed.

Lemma Ansible_Generate_cases yamlMarshal σ config :
  Ansible.Generate yamlMarshal σ config
  = match Ansible.Validate config with
    | Some err => ([], Some err)
    | None =>
        match yamlMarshal (Ansible.buildInventory σ config) with
        | (_, Some err) => ([], Some (ErrWrap "failed to generate inventory: " err))
        | (yamlData, None) =>
            ([GeneratedFile.mk "playbook.yml" (Ansible.generatePlaybook σ config).1
                TargetAnsible "utf-8";
              GeneratedFile.mk "inventory.yml" yamlData TargetAnsible "utf-8"],
             None)
        end
    end.
Proof.
  unfold Ansible.Generate, Ansible.generateInventory.
  destruct (Ansible.Validate config); [done|]. simpl.
  by destruct (yamlMarshal (Ansible.buildInventory σ config)) as [yamlData [err|]].
Qed.

End Orders.

(** C9, as the specification has it, fails: two runs of the Docker generator
    on the same project, one visiting the environment of the service by
    increasing key and the other by decreasing key, return different files. *)
Lemma Generate_depends_on_iteration_order :
  fair keyOrder
  ∧ fair reverseOrder
  ∧ Docker.Generate keyOrder twoEntriesProject
    ≠ Docker.Generate reverseOrder twoEntriesProject.
Proof.
  split; [apply fair_keyOrder|]. split; [apply fair_reverseOrder|].
  vm_compute. intros Heq. discriminate Heq.
Qed.

(** The two manifests of that counterexample. *)
Example manifest_keyOrder :
  (Docker.generateComposeYAML keyOrder twoEntriesProject).1
  = "services:" +:+ nl
    +:+ "  api:" +:+ nl
    +:+ "    image: node" +:+ nl
    +:+ "    environment:" +:+ nl
    +:+ "      A: 1" +:+ nl
    +:+ "      B: 2" +:+ nl
    +:+ nl.
Proof. vm_compute. reflexivity. Qed.

Example manifest_reverseOrder :
  (Docker.generateComposeYAML reverseOrder twoEntriesProject).1
  = "services:" +:+ nl
    +:+ "  api:" +:+ nl
    +:+ "    image: node" +:+ nl
    +:+ "    environment:" +:+ nl
    +:+ "      B: 2" +:+ nl
    +:+ "      A: 1" +:+ nl
    +:+ nl.
Proof. vm_compute. reflexivity. Qed.

(** * Further properties of the code *)

(** The set solver of stdpp clears hypotheses that may be gone already. *)
Set Warnings "-clear-no-such-hyp".

(** ** Validation errors and their message *)

Section Messages.
Import ValidationErrors_.

Lemma forRange_append {A} (f : nat → A → string) l : ∀ i msg,
  forRange (λ i x msg, msg +:+ f i x) i l msg
  = msg +:+ concatStrings (map (λ p, f p.1 p.2) (indexFrom i l)).
Proof.
  induction l as [|x l IH]; intros i msg; simpl.
  - by rewrite string_app_nil_r.
  - by rewrite IH, string_app_assoc.
Qed.

Lemma validateServices_flat services : ∀ i,
  forRange Docker.validateService i services []
  = flat_map (λ p, Docker.validateService p.1 p.2 []) (indexFrom i services).
Proof.
  induction services as [|service services IH]; intros i; simpl; [done|].
  by rewrite validateServices_app, IH.
Qed.

Lemma indexFrom_lookup {A} (l : list A) : ∀ i j x,
  l !! j = Some x → (i + j, x) ∈ indexFrom i l.
Proof.
  induction l as [|y l IH]; intros i j x Hj; [done|].
  destruct j as [|j]; simpl in *.
  - injection Hj as ->. rewrite Nat.add_0_r. by apply elem_of_cons; left.
  - apply elem_of_cons; right. rewrite <-Nat.add_succ_comm. by apply IH.
Qed.

(** The errors of a generator's validation, written out. *)
Lemma Docker_Validate_errors config :
  let errors :=
    (if isEmpty (ProjectConfig.Name config)
     then [ValidationError.mk "name" "project name is required"
             (VString (ProjectConfig.Name config))]
     else [])
    ++ (if (length (ProjectConfig.Services config) =? 0)%nat
        then [ValidationError.mk "services" "at least one service is required"
                (VInt (Z.of_nat (length (ProjectConfig.Services config))))]
        else [])
    ++ flat_map (λ p, Docker.validateService p.1 p.2 [])
         (indexFrom 0 (ProjectConfig.Services config)) in
  Docker.Validate config
  = if HasErrors errors then Some (ErrValidation errors) else None.
Proof.
  intros errors. subst errors. unfold Docker.Validate, Add.
  rewrite validateServices_app, validateServices_flat.
  by destruct (isEmpty (ProjectConfig.Name config)),
    (length (ProjectConfig.Services config) =? 0)%nat.
Qed.

End Messages.

(** X1. The message of a collection of validation errors: the fixed text for
    the empty collection; otherwise the count, then one line for each error,
    in the order of the collection, numbered from one. *)
Theorem ValidationErrors_Error_lines (ve : ValidationErrors) :
  ValidationErrors_.Error ve
  = match ve with
    | [] => "no validation errors"
    | _ :: _ =>
        fmt.d (Z.of_nat (length ve)) +:+ " validation error(s):"
        +:+ concatStrings
              (map
                 (λ p,
                    nl +:+ fmt.d (Z.of_nat p.1 + 1) +:+ ". "
                    +:+ "validation error on field '" +:+ ValidationError.Field p.2
                    +:+ "': " +:+ ValidationError.Message p.2)
                 (indexFrom 0 ve))
    end.
Proof.
  unfold ValidationErrors_.Error. destruct ve as [|e ve]; [done|].
  change (length (e :: ve) =? 0)%nat with false. cbv iota.
  rewrite (forRange_append
             (λ i err, nl +:+ fmt.d (Z.of_nat i + 1) +:+ ". " +:+ ValidationError.Error err)).
  by rewrite string_app_assoc.
Qed.

(** The message for a project with no name and no service. *)
Example Error_emptyProject :
  (Error <$> Docker.Validate emptyProject)
  = Some ("2 validation error(s):" +:+ nl
          +:+ "1. validation error on field 'name': project name is required" +:+ nl
          +:+ "2. validation error on field 'services': at least one service is required").
Proof. vm_compute. reflexivity. Qed.

(** X2. A service without a name or without a type makes the validation of a
    generator fail, and the collection holds an error whose field carries the
    position of the service in the list, counted from zero. *)
Theorem Validate_reports_position config i service :
  ProjectConfig.Services config !! i = Some service →
  ServiceConfig.Name service = EmptyString ∨ ServiceConfig.Type_ service = EmptyString →
  ∃ errors,
    Docker.Validate config = Some (ErrValidation errors)
    ∧ Ansible.Validate config = Some (ErrValidation errors)
    ∧ (ServiceConfig.Name service = EmptyString →
       ValidationError.mk ("services[" +:+ fmt.d (Z.of_nat i) +:+ "].name")
         "service name is required" (VString EmptyString)
       ∈ errors)
    ∧ (ServiceConfig.Type_ service = EmptyString →
       ValidationError.mk ("services[" +:+ fmt.d (Z.of_nat i) +:+ "].type")
         "service type is required" (VString EmptyString)
       ∈ errors).
Proof.
  intros Hi Hbad.
  change (Ansible.Validate config) with (Docker.Validate config).
  rewrite Docker_Validate_errors. cbv zeta.
  set (errors := _ ++ _ ++ _).
  assert (∀ e, e ∈ Docker.validateService i service [] → e ∈ errors) as Hsub.
  { intros e He. unfold errors. rewrite !elem_of_app. right. right.
    apply list_elem_of_In, in_flat_map. exists (i, service).
    split; [|by apply list_elem_of_In].
    apply list_elem_of_In. by apply (indexFrom_lookup _ 0 i). }
  assert (Docker.validateService i service [] ≠ []) as Hne.
  { rewrite validateService_nil. unfold wellNamed. intros [??]. by destruct Hbad. }
  assert (ValidationErrors_.HasErrors errors = true) as ->.
  { destruct (Docker.validateService i service []) as [|e l] eqn:Hv; [done|].
    apply (HasErrors_elem e), Hsub, elem_of_cons. by left. }
  exists errors. split; [done|]. split; [done|].
  unfold Docker.validateService, ValidationErrors_.Add in Hsub.
  split; intros Hempty; apply Hsub; rewrite Hempty; simpl.
  - destruct (isEmpty (ServiceConfig.Type_ service)); simpl;
      rewrite !elem_of_cons; auto.
  - destruct (isEmpty (ServiceConfig.Name service)); simpl;
      rewrite !elem_of_cons; auto.
Qed.

Lemma Validate_reports_position_witness :
  ∃ errors,
    Docker.Validate (project "p" [plainService "a" "web"; plainService "b" EmptyString] ∅)
    = Some (ErrValidation errors)
    ∧ ValidationError.mk "services[1].type" "service type is required"
        (VString EmptyString)
      ∈ errors.
Proof.
  destruct (Validate_reports_position
              (project "p" [plainService "a" "web"; plainService "b" EmptyString] ∅)
              1 (plainService "b" EmptyString))
    as (errors & Hd & _ & _ & Htype); [reflexivity|by right|].
  exists errors. split; [exact Hd|]. apply Htype. reflexivity.
Defined.

(** ** Whole-project validation *)

Section WholeProject.
Import ValidationErrors_.

Lemma checkDuplicate_grows services : ∀ seen errors,
  ∃ extra,
    (foldl Manager.checkDuplicate (seen, errors) services).2 = errors ++ extra.
Proof.
  induction services as [|service services IH]; intros seen errors; simpl.
  - exists []. by rewrite app_nil_r.
  - destruct (IH (<[ServiceConfig.Name service := true]> seen)
                (if default false (seen !! ServiceConfig.Name service)
                 then Add errors "services"
                        ("duplicate service name: " +:+ ServiceConfig.Name service)
                        (VString (ServiceConfig.Name service))
                 else errors)) as [extra ->].
    unfold Add. destruct (default false (seen !! ServiceConfig.Name service)).
    + eexists. by rewrite <-app_assoc.
    + by eexists.
Qed.

(** The loop over the names adds no error exactly when the names are pairwise
    different and none was seen before. *)
Lemma checkDuplicate_clean services : ∀ seen errors,
  (∀ k b, seen !! k = Some b → b = true) →
  (foldl Manager.checkDuplicate (seen, errors) services).2 = errors
  ↔ NoDup (ServiceConfig.Name <$> services)
    ∧ ∀ service, service ∈ services → seen !! ServiceConfig.Name service = None.
Proof.
  induction services as [|service services IH]; intros seen errors Htrue.
  - simpl. split; [|done]. intros _. split; [constructor|].
    by intros s ?%elem_of_nil.
  - simpl foldl.
    destruct (seen !! ServiceConfig.Name service) as [b|] eqn:Hseen; simpl.
    + rewrite (Htrue _ _ Hseen). unfold Add. split.
      * intros Heq.
        destruct (checkDuplicate_grows services
                    (<[ServiceConfig.Name service := true]> seen)
                    (errors ++ [ValidationError.mk "services"
                                  ("duplicate service name: " +:+ ServiceConfig.Name service)
                                  (VString (ServiceConfig.Name service))]))
          as [extra Hextra].
        rewrite Hextra in Heq. apply (f_equal length) in Heq.
        rewrite !length_app in Heq. simpl in Heq. lia.
      * intros [_ Hnone]. specialize (Hnone service). rewrite Hseen in Hnone.
        discriminate Hnone. by apply elem_of_cons; left.
    + rewrite IH.
      2:{ intros k b. destruct (decide (ServiceConfig.Name service = k)) as [->|Hne].
          - rewrite lookup_insert_eq. congruence.
          - rewrite lookup_insert_ne by done. apply Htrue. }
      rewrite ?fmap_cons, NoDup_cons. split.
      * intros [Hnd Hnone]. split; [split; [|done]|].
        -- intros (s & Heq & Hin)%list_elem_of_fmap.
           specialize (Hnone s Hin). rewrite <-Heq, lookup_insert_eq in Hnone. done.
        -- intros s [->|Hin]%elem_of_cons; [done|].
           specialize (Hnone s Hin).
           destruct (decide (ServiceConfig.Name service = ServiceConfig.Name s)) as [Heq|Hne].
           ++ by rewrite Heq, lookup_insert_eq in Hnone.
           ++ by rewrite lookup_insert_ne in Hnone.
      * intros [[Hnotin Hnd] Hnone]. split; [done|]. intros s Hin.
        destruct (decide (ServiceConfig.Name service = ServiceConfig.Name s)) as [Heq|Hne].
        -- destruct Hnotin. apply list_elem_of_fmap. by exists s.
        -- rewrite lookup_insert_ne by done. apply Hnone. by apply elem_of_cons; right.
Qed.

(** Whole-project validation succeeds exactly on a project with a name, a
    type and at least one service, whose services all have a name and a type,
    and no two of them the same name. *)
Lemma ValidateProject_None config :
  Manager.ValidateProject config = None
  ↔ ProjectConfig.Name config ≠ EmptyString
    ∧ ProjectConfig.Type_ config ≠ EmptyString
    ∧ ProjectConfig.Services config ≠ []
    ∧ Forall wellNamed (ProjectConfig.Services config)
    ∧ NoDup (ServiceConfig.Name <$> ProjectConfig.Services config).
Proof.
  unfold Manager.ValidateProject.
  change Manager.validateService with Docker.validateService.
  set (errors0 := forRange Docker.validateService 0 _ _).
  destruct (checkDuplicate_grows (ProjectConfig.Services config) ∅ errors0)
    as [extra Hextra].
  pose proof (checkDuplicate_clean (ProjectConfig.Services config) ∅ errors0) as Hclean.
  destruct (foldl Manager.checkDuplicate (∅, errors0) (ProjectConfig.Services config))
    as [seen errors]. simpl in Hextra, Hclean.
  assert (errors0 = []
          ↔ ProjectConfig.Name config ≠ EmptyString
            ∧ ProjectConfig.Type_ config ≠ EmptyString
            ∧ ProjectConfig.Services config ≠ []
            ∧ Forall wellNamed (ProjectConfig.Services config)) as Herrors0.
  { unfold errors0, Add. rewrite validateServices_app.
    rewrite <-!isEmpty_false, <-(validateServices_nil _ 0).
    destruct (isEmpty (ProjectConfig.Name config)),
      (isEmpty (ProjectConfig.Type_ config)),
      (ProjectConfig.Services config) as [|service services];
      simpl length; simpl Nat.eqb; cbv iota; simpl app;
      split; try done; by intros (? & ? & ? & ?). }
  assert (errors = errors0 ↔ NoDup (ServiceConfig.Name <$> ProjectConfig.Services config))
    as Hdup.
  { rewrite Hclean by (intros k b; by rewrite lookup_empty).
    split; [by intros [? _]|]. intros Hnd. split; [done|].
    intros s _. apply lookup_empty. }
  split.
  - intros Hnone. destruct (HasErrors errors) eqn:Hhas; [done|].
    apply HasErrors_false in Hhas. rewrite Hhas in Hextra, Hdup.
    symmetry in Hextra. apply app_eq_nil in Hextra as [Hnil _].
    pose proof (proj1 Herrors0 Hnil) as (? & ? & ? & ?).
    repeat split; try done. by apply Hdup.
  - intros (? & ? & ? & ? & Hnd).
    assert (errors0 = []) as Hnil by by apply Herrors0.
    apply Hdup in Hnd. by rewrite Hnd, Hnil.
Qed.

End WholeProject.

(** X3. Whole-project validation succeeds exactly on a project with a name, a
    type and at least one service, whose services all have a name and a type
    and carry pairwise different names. *)
Theorem ValidateProject_succeeds_iff config :
  Manager.ValidateProject config = None
  ↔ ProjectConfig.Name config ≠ EmptyString
    ∧ ProjectConfig.Type_ config ≠ EmptyString
    ∧ ProjectConfig.Services config ≠ []
    ∧ Forall wellNamed (ProjectConfig.Services config)
    ∧ NoDup (ServiceConfig.Name <$> ProjectConfig.Services config).
Proof. apply ValidateProject_None. Qed.

(** X4. A project that passes whole-project validation passes the validation
    of both generators, and the Docker generator then returns files and no
    error, whatever order the maps are visited in. *)
Theorem ValidateProject_implies_generators σ config :
  Manager.ValidateProject config = None →
  Docker.Validate config = None
  ∧ Ansible.Validate config = None
  ∧ ∃ files, Docker.Generate σ config = (files, None) ∧ files ≠ [].
Proof.
  intros (Hname & _ & Hservices & Hwell & _)%ValidateProject_None.
  assert (Docker.Validate config = None) as Hv by by apply Docker_Validate_None.
  split; [done|]. split; [exact Hv|].
  rewrite (Docker_Generate_valid _ _ Hv). by eexists.
Qed.

Lemma ValidateProject_implies_generators_witness :
  Docker.Validate mixedProject = None
  ∧ Ansible.Validate mixedProject = None
  ∧ ∃ files, Docker.Generate keyOrder mixedProject = (files, None) ∧ files ≠ [].
Proof. apply (ValidateProject_implies_generators keyOrder mixedProject). reflexivity. Defined.

(** ** The files of the Docker generator *)

Section DockerFiles.

Lemma foldl_entries {A} (w : Builder → A → Builder) (entry : A → string) :
  (∀ b x, w b x = b +:+ entry x) →
  ∀ l b, foldl w b l = b +:+ concatStrings (map entry l).
Proof.
  intros Hw l. induction l as [|x l IH]; intros b; simpl.
  - by rewrite string_app_nil_r.
  - by rewrite IH, Hw, string_app_assoc.
Qed.

Lemma writePort_entry b port : Docker.writePort b port = b +:+ portEntry port.
Proof.
  unfold Docker.writePort, portEntry, WriteString.
  destruct (0 <? PortConfig.Host port)%Z, (isEmpty (PortConfig.Protocol port));
    simpl negb; cbv iota; by rewrite !string_app_assoc.
Qed.

Lemma writeVolume_entry b volume :
  Docker.writeVolume b volume = b +:+ volumeEntry volume.
Proof.
  unfold Docker.writeVolume, volumeEntry, WriteString.
  destruct (VolumeConfig.ReadOnly volume); by rewrite !string_app_assoc.
Qed.

Lemma writeEnvironment_entry b kv :
  Docker.writeEnvironment b kv = b +:+ environmentEntry kv.
Proof.
  unfold Docker.writeEnvironment, environmentEntry, WriteString.
  by rewrite !string_app_assoc.
Qed.

Lemma writeDependency_entry b dep :
  Docker.writeDependency b dep = b +:+ dependencyEntry dep.
Proof.
  unfold Docker.writeDependency, dependencyEntry, WriteString.
  by rewrite !string_app_assoc.
Qed.

Lemma listSection_length {A} heading (entry : A → string) l :
  listSection heading entry l
  = if (0 <? length l)%nat
    then heading +:+ nl +:+ concatStrings (map entry l)
    else EmptyString.
Proof. by destruct l. Qed.

Lemma fair_length (σ : Schedule) site (m : gmap string string) :
  fair σ → length (σ _ site m) = size m.
Proof. intros Hfair. by rewrite (Hfair _ site m), length_map_to_list. Qed.

Lemma manifest_nonempty σ config :
  (Docker.generateComposeYAML σ config).1 ≠ EmptyString.
Proof.
  rewrite generateComposeYAML_blocks. simpl.
  by intros [? _]%string_app_eq_nil.
Qed.

Lemma generateEnvFile_nonempty σ config :
  isEmpty (Docker.generateEnvFile σ config) = false →
  Docker.generateEnvFile σ config ≠ EmptyString.
Proof. by intros ?%isEmpty_false. Qed.

End DockerFiles.

(** X5. However the Docker generator ends, its error is that of the
    validation.  When it succeeds it returns the manifest, alone or followed
    by the .env file: the paths are different, every record carries the
    target docker and the encoding utf-8, and no content is empty. *)
Theorem Docker_Generate_outcome σ config files outcome :
  Docker.Generate σ config = (files, outcome) →
  outcome = Docker.Validate config
  ∧ (outcome = None →
     (GeneratedFile.Path <$> files = ["docker-compose.yml"]
      ∨ GeneratedFile.Path <$> files = ["docker-compose.yml"; ".env"])
     ∧ NoDup (GeneratedFile.Path <$> files)
     ∧ Forall
         (λ file,
            GeneratedFile.Type_ file = TargetDocker
            ∧ GeneratedFile.Encoding file = "utf-8"
            ∧ GeneratedFile.Content file ≠ EmptyString)
         files).
Proof.
  destruct (Docker.Validate config) as [err|] eqn:Hv.
  - unfold Docker.Generate. rewrite Hv. by intros [= <- <-].
  - rewrite (Docker_Generate_valid _ _ Hv).
    destruct (isEmpty (Docker.generateEnvFile σ config)) eqn:Hempty;
      intros [= <- <-]; (split; [done|]); intros _; simpl.
    + split; [by left|]. split; [apply NoDup_singleton|].
      repeat constructor. apply manifest_nonempty.
    + split; [by right|]. split.
      * apply NoDup_cons. split; [|apply NoDup_singleton].
        by intros [= ]%list_elem_of_singleton.
      * repeat constructor;
          [apply manifest_nonempty|by apply generateEnvFile_nonempty].
Qed.

Lemma Docker_Generate_outcome_witness :
  ∃ files,
    Docker.Generate keyOrder secretProject = (files, None)
    ∧ GeneratedFile.Path <$> files = ["docker-compose.yml"; ".env"]
    ∧ NoDup (GeneratedFile.Path <$> files).
Proof.
  eexists. split; [vm_compute; reflexivity|].
  split; [reflexivity|].
  eapply (Docker_Generate_outcome keyOrder secretProject _ None);
    [vm_compute; reflexivity|reflexivity].
Defined.

(** X6. When every service is disabled the manifest is the heading of the
    services with no block under it, followed by the named-volumes section;
    that section still stands when a disabled service has a volume, and
    still lists the named volumes of the disabled services. *)
Theorem manifest_all_disabled σ config :
  Forall (λ service, ServiceConfig.Enabled service = false)
    (ProjectConfig.Services config) →
  (Docker.generateComposeYAML σ config).1
  = "services:" +:+ nl
    +:+ (if Docker.hasVolumes (ProjectConfig.Services config)
         then "volumes:" +:+ nl
              +:+ concatStrings
                    (map namedVolumeEntry (namedVolumes (ProjectConfig.Services config)))
         else EmptyString).
Proof.
  intros Hdis. rewrite generateComposeYAML_blocks, volumesSection_spec. simpl.
  do 2 f_equal.
  assert (∀ i, filter (λ p : nat * ServiceConfig.t, ServiceConfig.Enabled p.2 = true)
                 (indexFrom i (ProjectConfig.Services config)) = []) as ->; [|done].
  induction Hdis as [|service services Hs _ IH]; intros i; simpl; [done|].
  rewrite filter_cons_False by (simpl; congruence). apply IH.
Qed.

Lemma manifest_all_disabled_witness :
  (Docker.generateComposeYAML keyOrder disabledProject).1
  = "services:" +:+ nl +:+ "volumes:" +:+ nl +:+ "  data:" +:+ nl.
Proof.
  rewrite (manifest_all_disabled keyOrder disabledProject).
  - vm_compute. reflexivity.
  - repeat constructor.
Defined.

(** X7. The block of an enabled service, written out: the name; the image when
    there is one; the ports, each with the host port before the container port
    only when the host port is positive, and the protocol as a comment when
    there is one; the volumes, each marked read-only when it is; the
    environment in the order of the run; the dependencies; a blank line.  A
    part with no entry is left out with its heading. *)
Theorem serviceBlock_text σ i service :
  fair σ →
  ServiceConfig.Enabled service = true →
  serviceBlock σ (i, service)
  = "  " +:+ ServiceConfig.Name service +:+ ":" +:+ nl
    +:+ (if isEmpty (ServiceConfig.Image service) then EmptyString
         else "    image: " +:+ ServiceConfig.Image service +:+ nl)
    +:+ listSection "    ports:" portEntry (ServiceConfig.Ports service)
    +:+ listSection "    volumes:" volumeEntry (ServiceConfig.Volumes service)
    +:+ listSection "    environment:" environmentEntry
          (σ _ (ComposeEnvironment i) (ServiceConfig.Environment service))
    +:+ listSection "    depends_on:" dependencyEntry (ServiceConfig.DependsOn service)
    +:+ nl.
Proof.
  intros Hfair Hen. unfold serviceBlock, Docker.writeService. simpl.
  rewrite Hen. simpl negb. cbv iota.
  rewrite !listSection_length, (fair_length σ) by done.
  rewrite !(foldl_entries _ _ writePort_entry), !(foldl_entries _ _ writeVolume_entry),
    !(foldl_entries _ _ writeEnvironment_entry),
    !(foldl_entries _ _ writeDependency_entry).
  destruct (isEmpty (ServiceConfig.Image service)),
    (0 <? length (ServiceConfig.Ports service))%nat,
    (0 <? length (ServiceConfig.Volumes service))%nat,
    (0 <? size (ServiceConfig.Environment service))%nat,
    (0 <? length (ServiceConfig.DependsOn service))%nat;
    simpl negb; cbv iota; unfold WriteString;
    rewrite ?string_app_assoc; reflexivity.
Qed.

Lemma serviceBlock_text_witness :
  serviceBlock keyOrder
    (0, ServiceConfig.mk "web" "web" "nginx"
          [PortConfig.mk 8080 80 "tcp"; PortConfig.mk (-1) 443 EmptyString]
          [VolumeConfig.mk "./conf" "/etc/nginx" true "bind"] ∅ ["api"] true)
  = "  web:" +:+ nl
    +:+ "    image: nginx" +:+ nl
    +:+ "    ports:" +:+ nl
    +:+ "      - " +:+ dquote +:+ "8080:80" +:+ dquote +:+ " # tcp" +:+ nl
    +:+ "      - " +:+ dquote +:+ "443" +:+ dquote +:+ nl
    +:+ "    volumes:" +:+ nl
    +:+ "      - ./conf:/etc/nginx:ro" +:+ nl
    +:+ "    depends_on:" +:+ nl
    +:+ "      - api" +:+ nl
    +:+ nl.
Proof.
  rewrite (serviceBlock_text keyOrder); [|intros V site m; reflexivity|reflexivity].
  vm_compute. reflexivity.
Defined.

(** ** The playbook of the Ansible generator *)

Section Playbook.

Lemma directoryTasks_app volumes : ∀ tasks,
  foldl
    (λ tasks volume,
       if negb (isEmpty (VolumeConfig.Source volume))
          && negb (GoStrings.HasPrefix (VolumeConfig.Source volume) "/")
       then tasks
              ++ [AnsibleTask.mk
                    ("Create directory for " +:+ VolumeConfig.Source volume +:+ " volume")
                    "file" (VolumeConfig.Source volume) "directory"]
       else tasks)
    tasks volumes
  = tasks ++ map directoryTask (filter (λ volume, needsDirectory volume = true) volumes).
Proof.
  induction volumes as [|volume volumes IH]; intros tasks; simpl.
  - by rewrite app_nil_r.
  - rewrite IH. fold (needsDirectory volume). fold (directoryTask volume).
    destruct (needsDirectory volume) eqn:Hneeds.
    + rewrite filter_cons_True by done. simpl. by rewrite <-app_assoc.
    + by rewrite filter_cons_False by congruence.
Qed.

Lemma serviceTasks_app tasks service :
  Ansible.serviceTasks tasks service = tasks ++ tasksOfService service.
Proof.
  unfold Ansible.serviceTasks, tasksOfService.
  destruct (ServiceConfig.Enabled service); simpl negb; cbv iota.
  - rewrite directoryTasks_app.
    destruct (isEmpty (ServiceConfig.Image service)); simpl negb; cbv iota.
    + by rewrite app_nil_r.
    + by rewrite <-app_assoc.
  - by rewrite app_nil_r.
Qed.

Lemma serviceTasks_flat services : ∀ tasks,
  foldl Ansible.serviceTasks tasks services
  = tasks ++ flat_map tasksOfService services.
Proof.
  induction services as [|service services IH]; intros tasks; simpl.
  - by rewrite app_nil_r.
  - by rewrite IH, serviceTasks_app, <-app_assoc.
Qed.

Lemma generateTasks_flat config :
  Ansible.generateTasks config
  = setupTasks ++ flat_map tasksOfService (ProjectConfig.Services config) ++ deployTasks.
Proof.
  unfold Ansible.generateTasks. rewrite serviceTasks_flat.
  unfold setupTasks, deployTasks. simpl. by rewrite <-!app_assoc.
Qed.

Lemma extractPorts_map ports : Ansible.extractPorts ports = map portString ports.
Proof.
  unfold Ansible.extractPorts.
  assert (∀ acc,
            foldl
              (λ portStrings port,
                 if (0 <? PortConfig.Host port)%Z
                 then portStrings
                        ++ [fmt.d (PortConfig.Host port) +:+ ":"
                            +:+ fmt.d (PortConfig.Container port)]
                 else portStrings ++ [fmt.d (PortConfig.Container port)])
              acc ports
            = acc ++ map portString ports) as ->; [|done].
  induction ports as [|port ports IH]; intros acc; simpl.
  - by rewrite app_nil_r.
  - rewrite IH. unfold portString at 2.
    destruct (0 <? PortConfig.Host port)%Z; by rewrite <-app_assoc.
Qed.

Lemma extractVolumes_map volumes :
  Ansible.extractVolumes volumes = map volumeString volumes.
Proof.
  unfold Ansible.extractVolumes.
  apply (foldl_snoc_map volumeString volumes []).
Qed.

End Playbook.

(** X8. The tasks of the playbook are the three tasks that set the host up,
    then, for each service in the order of the list, the tasks of that service
    (none for a disabled service; for an enabled one a directory for each volume
    whose source is neither empty nor absolute, then the pull of its image
    when it has one), then the two tasks that deploy. *)
Theorem generateTasks_list config :
  Ansible.generateTasks config
  = setupTasks ++ flat_map tasksOfService (ProjectConfig.Services config) ++ deployTasks.
Proof. apply generateTasks_flat. Qed.

(** The tasks of the project made from the preset database: the second
    service is optional, hence disabled, and brings no task. *)
Example generateTasks_names :
  AnsibleTask.Name
  <$> Ansible.generateTasks
        (project "db"
           [serviceOfPreset
              (PresetService.mk "postgres" "database" EmptyString "postgres:15" []
                 [VolumeConfig.mk "postgres_data" "/var/lib/postgresql/data" false "volume";
                  VolumeConfig.mk "/srv/conf" "/etc/postgresql" true "bind"]
                 ∅ false)
              ∅;
            serviceOfPreset
              (PresetService.mk "mysql" "database" EmptyString "mysql:8.0" [] [] ∅ true)
              ∅]
           ∅)
  = ["Update package cache"; "Install Docker"; "Start and enable Docker service";
     "Create directory for postgres_data volume"; "Pull postgres Docker image";
     "Create docker-compose.yml"; "Deploy services with Docker Compose"].
Proof. vm_compute. reflexivity. Qed.

(** ** The variables of the playbook *)

Section Vars.

Lemma foldl_insert_fmap_NoDup {V W} (f : V → W) (l : list (string * V)) :
  ∀ dst : gmap string W,
  NoDup l.*1 →
  foldl (λ acc kv, <[kv.1 := f kv.2]> acc) dst l
  = (f <$> (list_to_map l : gmap string V)) ∪ dst.
Proof.
  induction l as [|[k v] l IH]; intros dst Hnd; simpl.
  - by rewrite fmap_empty, (left_id_L ∅ (∪)).
  - apply NoDup_cons in Hnd as [Hk Hnd].
    rewrite IH by done. rewrite fmap_insert, <-insert_union_l.
    symmetry. apply insert_union_r. rewrite lookup_fmap.
    by rewrite (not_elem_of_list_to_map_1 _ _ Hk).
Qed.

Lemma generateVars_fair σ config :
  fair σ →
  Ansible.generateVars σ config
  = foldl setServiceVars (VarString <$> ProjectConfig.Variables config)
      (ProjectConfig.Services config).
Proof.
  intros Hfair. unfold Ansible.generateVars. f_equal.
  pose proof (Hfair _ VarsVariables (ProjectConfig.Variables config)) as Hperm.
  rewrite foldl_insert_fmap_NoDup.
  - rewrite (right_id_L ∅ (∪)). f_equal.
    rewrite <-(list_to_map_to_list (ProjectConfig.Variables config)) at 2.
    apply list_to_map_proper; [|done].
    rewrite Hperm. apply NoDup_fst_map_to_list.
  - rewrite Hperm. apply NoDup_fst_map_to_list.
Qed.

Lemma setServiceVars_dom vars service :
  dom (setServiceVars vars service) = list_to_set (serviceKeys service) ∪ dom vars.
Proof.
  unfold setServiceVars, serviceKeys, varPrefix. simpl.
  rewrite !dom_insert_L. apply set_eq. intros x.
  rewrite !elem_of_union, !elem_of_singleton, elem_of_empty. tauto.
Qed.

Lemma setServiceVars_dom_fold services : ∀ vars,
  dom (foldl setServiceVars vars services)
  = list_to_set (flat_map serviceKeys services) ∪ dom vars.
Proof.
  induction services as [|service services IH]; intros vars.
  - simpl. set_solver.
  - simpl foldl. rewrite IH, setServiceVars_dom.
    change (flat_map serviceKeys (service :: services))
      with (serviceKeys service ++ flat_map serviceKeys services).
    rewrite list_to_set_app_L. set_solver.
Qed.

Lemma setServiceVars_other vars service k :
  k ∉ serviceKeys service → setServiceVars vars service !! k = vars !! k.
Proof.
  unfold setServiceVars, serviceKeys, varPrefix. simpl. intros Hk.
  rewrite !lookup_insert_ne; [done|..]; intros <-; apply Hk;
    rewrite !elem_of_cons; auto 10.
Qed.

Lemma setServiceVars_other_fold services : ∀ vars k,
  k ∉ flat_map serviceKeys services →
  foldl setServiceVars vars services !! k = vars !! k.
Proof.
  induction services as [|service services IH]; intros vars k Hk; [done|].
  simpl foldl.
  change (flat_map serviceKeys (service :: services))
    with (serviceKeys service ++ flat_map serviceKeys services) in Hk.
  apply not_elem_of_app in Hk as [Hk1 Hk2].
  by rewrite IH, setServiceVars_other.
Qed.

Lemma setServiceVars_last vars service :
  let result := setServiceVars vars service in
  result !! (varPrefix service +:+ "_image")
  = Some (VarString (ServiceConfig.Image service))
  ∧ result !! (varPrefix service +:+ "_ports")
    = Some (VarStrings (map portString (ServiceConfig.Ports service)))
  ∧ result !! (varPrefix service +:+ "_volumes")
    = Some (VarStrings (map volumeString (ServiceConfig.Volumes service)))
  ∧ result !! (varPrefix service +:+ "_enabled")
    = Some (VarBool (ServiceConfig.Enabled service)).
Proof.
  unfold setServiceVars, varPrefix. simpl.
  rewrite extractPorts_map, extractVolumes_map.
  repeat split.
  - rewrite !lookup_insert_ne by (by intros ?%(inj (String.append _))).
    by rewrite lookup_insert_eq.
  - rewrite !lookup_insert_ne by (by intros ?%(inj (String.append _))).
    by rewrite lookup_insert_eq.
  - rewrite !lookup_insert_ne by (by intros ?%(inj (String.append _))).
    by rewrite lookup_insert_eq.
  - by rewrite lookup_insert_eq.
Qed.

Lemma foldl_snoc_last {A B} (f : B → A → B) l x b :
  foldl f b (l ++ [x]) = f (foldl f b l) x.
Proof. by rewrite foldl_app. Qed.

(** X9. The variables of the playbook do not depend on the order in which
    the project variables are visited.  Their names are the names of the
    project variables and, for each service, the four names made from its
    name with hyphens turned into underscores; a project variable whose name
    is none of these service names keeps its value. *)
Theorem generateVars_names σ1 σ2 config :
  fair σ1 →
  fair σ2 →
  Ansible.generateVars σ1 config = Ansible.generateVars σ2 config
  ∧ dom (Ansible.generateVars σ1 config)
    = list_to_set (flat_map serviceKeys (ProjectConfig.Services config))
      ∪ dom (ProjectConfig.Variables config)
  ∧ (∀ k v,
       ProjectConfig.Variables config !! k = Some v →
       k ∉ flat_map serviceKeys (ProjectConfig.Services config) →
       Ansible.generateVars σ1 config !! k = Some (VarString v)).
Proof.
  intros H1 H2. rewrite !generateVars_fair by done.
  split; [done|]. split.
  - by rewrite setServiceVars_dom_fold, dom_fmap_L.
  - intros k v Hk Hnot.
    by rewrite setServiceVars_other_fold, lookup_fmap, Hk.
Qed.

Lemma generateVars_names_witness :
  Ansible.generateVars keyOrder secretProject
  = Ansible.generateVars reverseOrder secretProject
  ∧ dom (Ansible.generateVars keyOrder secretProject)
    = list_to_set (flat_map serviceKeys (ProjectConfig.Services secretProject))
      ∪ dom (ProjectConfig.Variables secretProject)
  ∧ (∀ k v,
       ProjectConfig.Variables secretProject !! k = Some v →
       k ∉ flat_map serviceKeys (ProjectConfig.Services secretProject) →
       Ansible.generateVars keyOrder secretProject !! k = Some (VarString v)).
Proof.
  apply (generateVars_names keyOrder reverseOrder secretProject).
  - intros V site m. reflexivity.
  - intros V site m. apply reverse_Permutation.
Defined.

(** X10. The four variables of the last service of the list hold the values
    of that service: its image, its ports as host:container or container
    alone, its volumes as source:target, and its enabled flag.  So when two
    services have names that differ only by hyphens and underscores, the
    variables of the later one replace those of the earlier one. *)
Theorem generateVars_last_service σ config services service :
  ProjectConfig.Services config = services ++ [service] →
  let vars := Ansible.generateVars σ config in
  vars !! (varPrefix service +:+ "_image")
  = Some (VarString (ServiceConfig.Image service))
  ∧ vars !! (varPrefix service +:+ "_ports")
    = Some (VarStrings (map portString (ServiceConfig.Ports service)))
  ∧ vars !! (varPrefix service +:+ "_volumes")
    = Some (VarStrings (map volumeString (ServiceConfig.Volumes service)))
  ∧ vars !! (varPrefix service +:+ "_enabled")
    = Some (VarBool (ServiceConfig.Enabled service)).
Proof.
  intros Hservices vars. subst vars. unfold Ansible.generateVars.
  rewrite Hservices, foldl_snoc_last.
  apply (setServiceVars_last _ service).
Qed.

Lemma generateVars_last_service_witness :
  let vars := Ansible.generateVars keyOrder clashProject in
  vars !! "api_gw_image" = Some (VarString "two")
  ∧ vars !! "api_gw_ports" = Some (VarStrings ["6379"])
  ∧ vars !! "api_gw_volumes" = Some (VarStrings [])
  ∧ vars !! "api_gw_enabled" = Some (VarBool false).
Proof.
  apply (generateVars_last_service keyOrder clashProject
           [ServiceConfig.mk "api-gw" "web" "one" [] [] ∅ [] true]
           (ServiceConfig.mk "api_gw" "cache" "two" [PortConfig.mk 0 6379 "tcp"]
              [] ∅ [] false)).
  reflexivity.
Defined.

End Vars.

(** X11. Every task of the playbook names a module, a package and a state,
    so that each is written on four lines; and the playbook has at least the
    five tasks that do not depend on the services. *)
Theorem generateTasks_complete config :
  Forall
    (λ task,
       AnsibleTask.Module_ task ≠ EmptyString
       ∧ AnsibleTask.Package task ≠ EmptyString
       ∧ AnsibleTask.State task ≠ EmptyString)
    (Ansible.generateTasks config)
  ∧ 5 ≤ length (Ansible.generateTasks config).
Proof.
  rewrite generateTasks_flat. split.
  - rewrite !Forall_app. split; [by repeat constructor|].
    split; [|by repeat constructor].
    apply Forall_forall. intros task Hin.
    apply list_elem_of_In, in_flat_map in Hin as (service & _ & Hin).
    apply list_elem_of_In in Hin. unfold tasksOfService in Hin.
    destruct (ServiceConfig.Enabled service); [|by apply elem_of_nil in Hin].
    apply elem_of_app in Hin as [Hin|Hin].
    + apply list_elem_of_fmap in Hin as (volume & -> & Hvol).
      apply list_elem_of_filter in Hvol as [Hneeds _].
      unfold needsDirectory in Hneeds.
      apply andb_true_iff in Hneeds as [Hsrc _].
      apply negb_true_iff, isEmpty_false in Hsrc. by simpl.
    + destruct (isEmpty (ServiceConfig.Image service)) eqn:Himg;
        [by apply elem_of_nil in Hin|].
      apply list_elem_of_singleton in Hin as ->.
      apply isEmpty_false in Himg. by simpl.
  - rewrite !length_app. simpl. lia.
Qed.

(** ** The files of the Ansible generator *)

(** X12. The Ansible generator fails only with the error of the validation,
    or with the error of the marshaller of the inventory behind the prefix
    failed to generate inventory, and then it returns no file.  When it
    succeeds it returns the playbook and the inventory, in this order and
    never a requirements file, each with the target ansible and the encoding
    utf-8. *)
Theorem Ansible_Generate_outcome yamlMarshal σ config files outcome :
  Ansible.Generate yamlMarshal σ config = (files, outcome) →
  (outcome = None →
   Ansible.Validate config = None
   ∧ GeneratedFile.Path <$> files = ["playbook.yml"; "inventory.yml"]
   ∧ Forall
       (λ file,
          GeneratedFile.Type_ file = TargetAnsible
          ∧ GeneratedFile.Encoding file = "utf-8")
       files)
  ∧ (∀ err,
       outcome = Some err →
       files = []
       ∧ (Ansible.Validate config = Some err
          ∨ Ansible.Validate config = None
            ∧ ∃ cause,
                (yamlMarshal (Ansible.buildInventory σ config)).2 = Some cause
                ∧ err = ErrWrap "failed to generate inventory: " cause)).
Proof.
  rewrite Ansible_Generate_cases.
  destruct (Ansible.Validate config) as [verr|].
  - intros [= <- <-]. split; [done|]. intros err [= <-]. split; [done|]. by left.
  - destruct (yamlMarshal (Ansible.buildInventory σ config)) as [yamlData [cause|]];
      intros [= <- <-].
    + split; [done|]. intros err [= <-]. split; [done|]. right.
      split; [done|]. by exists cause.
    + split; [|done]. intros _. split; [done|]. split; [done|].
      by repeat constructor.
Qed.

Lemma Ansible_Generate_outcome_witness :
  GeneratedFile.Path <$> (Ansible.Generate constMarshal keyOrder mixedProject).1
  = ["playbook.yml"; "inventory.yml"].
Proof.
  destruct (Ansible_Generate_outcome constMarshal keyOrder mixedProject
              (Ansible.Generate constMarshal keyOrder mixedProject).1 None)
    as [Hok _]; [vm_compute; reflexivity|].
  by destruct (Hok eq_refl) as (_ & Hpaths & _).
Defined.

(** X13. The variables of the inventory are the project variables, together
    with the name of the project under project_name and the environment label
    under environment unless a project variable has that name: a project
    variable called project_name or environment replaces the value taken from
    the project. *)
Theorem inventory_vars σ config k :
  fair σ →
  AnsibleInventory.Vars (Ansible.buildInventory σ config) !! k
  = match ProjectConfig.Variables config !! k with
    | Some v => Some v
    | None =>
        if decide (k = "project_name") then Some (ProjectConfig.Name config)
        else if decide (k = "environment") then Some (ProjectConfig.Environment config)
        else None
    end.
Proof.
  intros Hfair. unfold Ansible.buildInventory. simpl.
  rewrite copyInto_fair by done. rewrite lookup_union.
  destruct (ProjectConfig.Variables config !! k) as [v|]; simpl.
  - by rewrite union_Some_l.
  - rewrite (left_id_L None _).
    repeat case_decide; subst; by simplify_map_eq.
Qed.

Lemma inventory_vars_witness :
  AnsibleInventory.Vars (Ansible.buildInventory keyOrder shadowProject) !! "project_name"
  = Some "other".
Proof.
  rewrite (inventory_vars keyOrder shadowProject "project_name").
  - reflexivity.
  - intros V site m. reflexivity.
Defined.

(** ** Projects made from presets *)

Section FromPreset.

Lemma convertService_map σ services : ∀ i acc,
  forRange (Manager.convertService σ) i services acc
  = acc
    ++ map
         (λ p,
            serviceOfPreset p.2
              (copyInto σ (PresetEnvironment p.1) (PresetService.Environment p.2) ∅))
         (indexFrom i services).
Proof.
  induction services as [|service services IH]; intros i acc; simpl.
  - by rewrite app_nil_r.
  - rewrite IH. unfold Manager.convertService, serviceOfPreset.
    by rewrite <-app_assoc.
Qed.

Lemma convertService_fair σ services :
  fair σ →
  forRange (Manager.convertService σ) 0 services []
  = map (λ presetService,
           serviceOfPreset presetService (PresetService.Environment presetService))
      services.
Proof.
  intros Hfair. rewrite convertService_map. simpl. generalize 0.
  induction services as [|service services IH]; intros i; simpl; [done|].
  by rewrite IH, copyInto_fair, (right_id_L ∅ (∪)).
Qed.

Lemma loadPresetTemplateData_inl presetID :
  ∃ loaded,
    Manager.loadPresetTemplateData presetID = inl loaded
    ∧ Preset.Services loaded
      = if (presetID =? "web-app")%string then Manager.webAppServices
        else if (presetID =? "microservice")%string then Manager.microserviceServices
        else if (presetID =? "database")%string then Manager.databaseServices
        else [].
Proof.
  unfold Manager.loadPresetTemplateData.
  destruct (presetID =? "web-app")%string; [by eexists|].
  destruct (presetID =? "microservice")%string; [by eexists|].
  destruct (presetID =? "database")%string; by eexists.
Qed.

Lemma getProjectTypeFromPreset_nonempty presetID :
  Manager.getProjectTypeFromPreset presetID ≠ EmptyString.
Proof.
  unfold Manager.getProjectTypeFromPreset.
  repeat (match goal with |- context [if ?b then _ else _] => destruct b end); done.
Qed.

(** The project that a successful call returns. *)
Lemma CreateProjectFromPreset_inl
    σ clock tick m presetID projectName environment config tick' :
  Manager.CreateProjectFromPreset σ clock tick m presetID projectName environment
  = (inl config, tick') →
  ∃ preset loaded,
    TemplateManager.GetPreset (Manager.templateManager m) presetID = inl preset
    ∧ Manager.loadPresetTemplateData presetID = inl loaded
    ∧ config
      = ProjectConfig.mk projectName (Manager.getProjectTypeFromPreset presetID)
          (Preset.Description preset) "1.0.0" environment
          (forRange (Manager.convertService σ) 0 (Preset.Services loaded) [])
          (copyInto σ PresetVariables (Preset.Variables preset) ∅)
          (clock tick) (clock (S tick)).
Proof.
  unfold Manager.CreateProjectFromPreset, Now.
  destruct (TemplateManager.GetPreset _ presetID) as [preset|err]; [|done].
  destruct (Manager.loadPresetTemplateData presetID) as [loaded|err]; [|done].
  intros [= <- <-]. by exists preset, loaded.
Qed.

End FromPreset.

(** X14. Making a project from a preset fails exactly when the identifier is
    in neither catalog; the error then says preset 'id' not found, and the
    clock has not been read. *)
Theorem CreateProjectFromPreset_unknown
    σ clock tick m presetID projectName environment :
  let tm := Manager.templateManager m in
  let result :=
    Manager.CreateProjectFromPreset σ clock tick m presetID projectName environment in
  (TemplateManager.embedded tm !! presetID = None
   ∧ TemplateManager.custom tm !! presetID = None →
   result = (inr (ErrMessage ("preset '" +:+ presetID +:+ "' not found")), tick))
  ∧ (∀ err tick',
       result = (inr err, tick') →
       TemplateManager.embedded tm !! presetID = None
       ∧ TemplateManager.custom tm !! presetID = None).
Proof.
  intros tm result. subst tm result.
  unfold Manager.CreateProjectFromPreset, TemplateManager.GetPreset, Now.
  destruct (loadPresetTemplateData_inl presetID) as (loaded & -> & _).
  destruct (TemplateManager.embedded (Manager.templateManager m) !! presetID);
    destruct (TemplateManager.custom (Manager.templateManager m) !! presetID);
    split; try done; by intros [].
Qed.

Lemma CreateProjectFromPreset_unknown_witness :
  Manager.CreateProjectFromPreset keyOrder tickingClock 7 sampleManager
    "blog-engine" "blog" "development"
  = (inr (ErrMessage "preset 'blog-engine' not found"), 7).
Proof.
  apply (proj1 (CreateProjectFromPreset_unknown keyOrder tickingClock 7 sampleManager
                  "blog-engine" "blog" "development")).
  split; reflexivity.
Defined.

(** X15. The project made from a preset, in full: the name and the
    environment label are the arguments, the version is 1.0.0, the type comes
    from the identifier, the description and the variables come from the entry
    of the catalog, and the services come from the table of the manager for
    the identifier and not from the entry of the catalog.  Each service keeps
    name, type, image, ports, volumes and environment, depends on nothing, and
    is enabled exactly when it is not optional. *)
Theorem CreateProjectFromPreset_project
    σ clock tick m presetID projectName environment config tick' :
  fair σ →
  Manager.CreateProjectFromPreset σ clock tick m presetID projectName environment
  = (inl config, tick') →
  ∃ preset loaded,
    TemplateManager.GetPreset (Manager.templateManager m) presetID = inl preset
    ∧ Manager.loadPresetTemplateData presetID = inl loaded
    ∧ config
      = ProjectConfig.mk projectName (Manager.getProjectTypeFromPreset presetID)
          (Preset.Description preset) "1.0.0" environment
          (map
             (λ presetService,
                ServiceConfig.mk
                  (PresetService.Name presetService)
                  (PresetService.Type_ presetService)
                  (PresetService.Image presetService)
                  (PresetService.Ports presetService)
                  (PresetService.Volumes presetService)
                  (PresetService.Environment presetService)
                  []
                  (negb (PresetService.Optional presetService)))
             (Preset.Services loaded))
          (Preset.Variables preset)
          (clock tick) (clock (S tick)).
Proof.
  intros Hfair (preset & loaded & Hget & Hload & ->)%CreateProjectFromPreset_inl.
  exists preset, loaded. split; [done|]. split; [done|].
  by rewrite convertService_fair, copyInto_fair, (right_id_L ∅ (∪)).
Qed.

Lemma CreateProjectFromPreset_project_witness :
  ∃ config,
    (Manager.CreateProjectFromPreset keyOrder tickingClock 0 sampleManager
       "web-app" "blog" "development").1
    = inl config
    ∧ ServiceConfig.Name <$> ProjectConfig.Services config
      = ["frontend"; "api"; "database"].
Proof.
  destruct (Manager.CreateProjectFromPreset keyOrder tickingClock 0 sampleManager
              "web-app" "blog" "development") as [[config|err] tick'] eqn:Hcreate.
  - destruct (CreateProjectFromPreset_project keyOrder tickingClock 0 sampleManager
                "web-app" "blog" "development" config tick')
      as (preset & loaded & _ & Hload & ->);
      [intros V site m; reflexivity|exact Hcreate|].
    injection Hload as <-. eexists. split; reflexivity.
  - exfalso. revert Hcreate. vm_compute. discriminate.
Defined.

(** X16. A project made from a preset under a non-empty name passes
    whole-project validation exactly when the identifier is web-app,
    microservice or database: for any other preset of the catalog the project
    has no service. *)
Theorem CreateProjectFromPreset_valid_iff
    σ clock tick m presetID projectName environment config tick' :
  projectName ≠ EmptyString →
  Manager.CreateProjectFromPreset σ clock tick m presetID projectName environment
  = (inl config, tick') →
  (Manager.ValidateProject config = None ↔ presetID ∈ presetsWithServices)
  ∧ (presetID ∉ presetsWithServices → ProjectConfig.Services config = []).
Proof.
  intros Hname (preset & loaded & _ & Hload & ->)%CreateProjectFromPreset_inl.
  destruct (loadPresetTemplateData_inl presetID) as (loaded' & Hload' & Hservices).
  rewrite Hload in Hload'. injection Hload' as <-.
  rewrite ValidateProject_None. simpl. rewrite convertService_map, Hservices.
  pose proof (getProjectTypeFromPreset_nonempty presetID) as Htype.
  unfold presetsWithServices.
  destruct (String.eqb_spec presetID "web-app") as [->|Hweb].
  { split; [|intros []; set_solver]. split; [set_solver|]. intros _.
    repeat split; try done.
    - repeat constructor; done.
    - simpl. repeat constructor; set_solver. }
  destruct (String.eqb_spec presetID "microservice") as [->|Hmicro].
  { split; [|intros []; set_solver]. split; [set_solver|]. intros _.
    repeat split; try done.
    - repeat constructor; done.
    - simpl. repeat constructor; set_solver. }
  destruct (String.eqb_spec presetID "database") as [->|Hdb].
  { split; [|intros []; set_solver]. split; [set_solver|]. intros _.
    repeat split; try done.
    - repeat constructor; done.
    - simpl. repeat constructor; set_solver. }
  split; [|done]. split.
  - by intros (_ & _ & ? & _).
  - intros Hin. exfalso. set_solver.
Qed.

Lemma CreateProjectFromPreset_valid_iff_witness :
  ∃ config,
    (Manager.CreateProjectFromPreset keyOrder tickingClock 0 sampleManager
       "web-app" "blog" "development").1
    = inl config
    ∧ Manager.ValidateProject config = None.
Proof.
  destruct (Manager.CreateProjectFromPreset keyOrder tickingClock 0 sampleManager
              "web-app" "blog" "development") as [[config|err] tick'] eqn:Hcreate.
  - exists config. split; [reflexivity|].
    apply (CreateProjectFromPreset_valid_iff keyOrder tickingClock 0 sampleManager
             "web-app" "blog" "development" config tick'); [done|exact Hcreate|].
    unfold presetsWithServices. set_solver.
  - exfalso. revert Hcreate. vm_compute. discriminate.
Defined.

(** ** The template manager *)

Section TemplatesFacts.

Lemma takeBytes_dropBytes n s :
  GoSlices.takeBytes n s +:+ GoSlices.dropBytes n s = s.
Proof.
  revert s. induction n as [|n IH]; intros [|c s]; simpl; try done.
  by rewrite string_app_cons, IH.
Qed.

Lemma dropBytes_app s t :
  GoSlices.dropBytes (String.length s) (s +:+ t) = t.
Proof. induction s as [|c s IH]; [by destruct t|]. by rewrite string_app_cons. Qed.

Lemma takeBytes_app s t :
  GoSlices.takeBytes (String.length s) (s +:+ t) = s.
Proof.
  induction s as [|c s IH]; [by destruct t|].
  rewrite string_app_cons. simpl. by rewrite IH.
Qed.

Lemma HasSuffix_spec s suffix :
  GoSlices.HasSuffix s suffix = true ↔ ∃ pre, s = pre +:+ suffix.
Proof.
  unfold GoSlices.HasSuffix. rewrite andb_true_iff, Nat.leb_le, String.eqb_eq. split.
  - intros [_ Hdrop].
    set (n := String.length s - String.length suffix) in *.
    exists (GoSlices.takeBytes n s).
    by rewrite <-Hdrop, takeBytes_dropBytes.
  - intros [pre ->]. rewrite string_app_length. split; [lia|].
    replace (String.length pre + String.length suffix - String.length suffix)
      with (String.length pre) by lia.
    apply dropBytes_app.
Qed.

Lemma TrimSuffix_app pre suffix :
  GoSlices.TrimSuffix (pre +:+ suffix) suffix = pre.
Proof.
  unfold GoSlices.TrimSuffix.
  assert (GoSlices.HasSuffix (pre +:+ suffix) suffix = true) as ->
    by (apply HasSuffix_spec; by exists pre).
  rewrite string_app_length.
  replace (String.length pre + String.length suffix - String.length suffix)
    with (String.length pre) by lia.
  apply takeBytes_app.
Qed.

Lemma yaml_contains_ml path :
  GoSlices.HasSuffix path ".yaml" = true → GoStrings.Contains path "ml" = true.
Proof.
  intros [pre ->]%HasSuffix_spec. apply Contains_spec.
  exists (pre +:+ ".ya"), EmptyString. by rewrite string_app_assoc.
Qed.

Lemma getCategoryFromPath_yaml path :
  GoSlices.HasSuffix path ".yaml" = true →
  Templates.getCategoryFromPath path
  = if GoStrings.Contains path "web" then "Web Applications"
    else if GoStrings.Contains path "database" then "Databases"
    else "Machine Learning".
Proof.
  intros Hml%yaml_contains_ml. unfold Templates.getCategoryFromPath.
  by rewrite Hml.
Qed.

Lemma visit_loaded step embedded :
  (∀ id preset, embedded !! id = Some preset → loadedPreset id preset) →
  ∀ id preset, (Templates.visit step embedded).1 !! id = Some preset →
  loadedPreset id preset.
Proof.
  intros Hinv id preset. unfold Templates.visit.
  destruct (WalkStep.err step); [apply Hinv|].
  destruct (DirEntry.IsDir (WalkStep.d step)); [apply Hinv|]. simpl.
  destruct (GoSlices.HasSuffix (WalkStep.path step) ".yaml") eqn:Hyaml;
    [|apply Hinv].
  simpl. intros [[<- <-]|[_ Hold]]%lookup_insert_Some; [|by apply Hinv].
  unfold loadedPreset. simpl. repeat split.
  rewrite (getCategoryFromPath_yaml _ Hyaml).
  destruct (GoStrings.Contains (WalkStep.path step) "web");
    [|destruct (GoStrings.Contains (WalkStep.path step) "database")];
    rewrite !elem_of_cons; auto.
Qed.

Lemma loadEmbeddedTemplates_loaded walk : ∀ embedded,
  (∀ id preset, embedded !! id = Some preset → loadedPreset id preset) →
  ∀ id preset,
    (Templates.loadEmbeddedTemplates walk embedded).1 !! id = Some preset →
    loadedPreset id preset.
Proof.
  induction walk as [|step walk IH]; intros embedded Hinv; simpl; [done|].
  pose proof (visit_loaded step embedded Hinv) as Hvisit.
  destruct (Templates.visit step embedded) as [embedded' [err|]]; simpl in *.
  - done.
  - by apply IH.
Qed.

Lemma NewTemplateManager_GetPreset walk id preset :
  TemplateManager.GetPreset (Templates.NewTemplateManager walk) id = inl preset →
  loadedPreset id preset.
Proof.
  unfold TemplateManager.GetPreset, Templates.NewTemplateManager. simpl.
  destruct ((Templates.loadEmbeddedTemplates walk ∅).1 !! id) as [p|] eqn:Hp.
  - intros [= <-]. revert Hp. apply loadEmbeddedTemplates_loaded.
    intros ? ?. by rewrite lookup_empty.
  - by rewrite lookup_empty.
Qed.

End TemplatesFacts.

(** X17. A path that ends in .yaml contains ml, so the category of a bundled
    template is Web Applications, Databases or Machine Learning: the
    categories Infrastructure and General are never given to one. *)
Theorem getCategoryFromPath_of_yaml path :
  GoSlices.HasSuffix path ".yaml" = true →
  Templates.getCategoryFromPath path
  = (if GoStrings.Contains path "web" then "Web Applications"
     else if GoStrings.Contains path "database" then "Databases"
     else "Machine Learning")
  ∧ Templates.getCategoryFromPath path ≠ "Infrastructure"
  ∧ Templates.getCategoryFromPath path ≠ "General".
Proof.
  intros Hyaml. rewrite (getCategoryFromPath_yaml _ Hyaml).
  split; [done|].
  by destruct (GoStrings.Contains path "web"), (GoStrings.Contains path "database").
Qed.

Lemma getCategoryFromPath_of_yaml_witness :
  Templates.getCategoryFromPath "embedded/infrastructure.yaml" = "Machine Learning".
Proof.
  destruct (getCategoryFromPath_of_yaml "embedded/infrastructure.yaml") as [-> _];
    reflexivity.
Defined.

(** X18. In the manager that the walk of the bundled directory makes, a
    preset found under an identifier carries that identifier, has no service,
    no variable and no tag, the description of the table for its identifier
    (or the identifier followed by project template), and one of the three
    categories that a path in .yaml can get; the catalog of custom templates
    is empty. *)
Theorem NewTemplateManager_presets walk id preset :
  TemplateManager.GetPreset (Templates.NewTemplateManager walk) id = inl preset →
  Preset.ID preset = id
  ∧ Preset.Description preset
    = match Templates.descriptions !! id with
      | Some desc => desc
      | None => id +:+ " project template"
      end
  ∧ Preset.Services preset = []
  ∧ Preset.Variables preset = ∅
  ∧ Preset.Tags preset = []
  ∧ Preset.Category preset ∈ ["Web Applications"; "Databases"; "Machine Learning"]
  ∧ TemplateManager.custom (Templates.NewTemplateManager walk) = ∅.
Proof.
  intros (? & ? & ? & ? & ? & ?)%NewTemplateManager_GetPreset. by repeat split.
Qed.

Lemma NewTemplateManager_presets_witness :
  ∃ preset,
    TemplateManager.GetPreset (Templates.NewTemplateManager sampleWalk) "infrastructure"
    = inl preset
    ∧ Preset.ID preset = "infrastructure"
    ∧ Preset.Category preset ∈ ["Web Applications"; "Databases"; "Machine Learning"].
Proof.
  destruct (TemplateManager.GetPreset (Templates.NewTemplateManager sampleWalk)
              "infrastructure") as [preset|err] eqn:Hget.
  - exists preset. split; [reflexivity|].
    destruct (NewTemplateManager_presets sampleWalk "infrastructure" preset Hget)
      as (Hid & _ & _ & _ & _ & Hcat & _).
    by split.
  - exfalso. revert Hget. vm_compute. discriminate.
Defined.

(** The catalog of the sample walk: the directory is passed over, and both
    templates get a category by the first word their path contains. *)
Example NewTemplateManager_sampleWalk :
  (λ kv, (kv.1, Preset.Name kv.2, Preset.Category kv.2))
  <$> map_to_list (TemplateManager.embedded (Templates.NewTemplateManager sampleWalk))
  = [("web-app", "Web app", "Web Applications");
     ("infrastructure", "Infrastructure", "Machine Learning")].
Proof. vm_compute. reflexivity. Qed.

(** X19. A project made through such a manager has no variable, whatever the
    preset, and its description is the one of the table for the identifier, or
    the identifier followed by project template. *)
Theorem CreateProjectFromPreset_no_variables
    σ clock tick walk presetID projectName environment config tick' :
  fair σ →
  Manager.CreateProjectFromPreset σ clock tick
    (Manager.mk (Templates.NewTemplateManager walk)) presetID projectName environment
  = (inl config, tick') →
  ProjectConfig.Variables config = ∅
  ∧ ProjectConfig.Description config
    = match Templates.descriptions !! presetID with
      | Some desc => desc
      | None => presetID +:+ " project template"
      end.
Proof.
  intros Hfair (preset & loaded & Hget & _ & ->)%CreateProjectFromPreset_inl.
  simpl in *. rewrite copyInto_fair by done.
  pose proof Hget as (_ & -> & _ & -> & _)%NewTemplateManager_GetPreset.
  split; [by rewrite (right_id_L ∅ (∪))|done].
Qed.

Lemma CreateProjectFromPreset_no_variables_witness :
  ∃ config,
    (Manager.CreateProjectFromPreset keyOrder tickingClock 0
       (Manager.mk (Templates.NewTemplateManager sampleWalk))
       "infrastructure" "ops" "production").1
    = inl config
    ∧ ProjectConfig.Variables config = ∅
    ∧ ProjectConfig.Description config
      = "Core infrastructure components (monitoring, logging)".
Proof.
  destruct (Manager.CreateProjectFromPreset keyOrder tickingClock 0
              (Manager.mk (Templates.NewTemplateManager sampleWalk))
              "infrastructure" "ops" "production") as [[config|err] tick'] eqn:Hcreate.
  - exists config. split; [reflexivity|].
    apply (CreateProjectFromPreset_no_variables keyOrder tickingClock 0 sampleWalk
             "infrastructure" "ops" "production" config tick');
      [intros V site m; reflexivity|exact Hcreate].
  - exfalso. revert Hcreate. vm_compute. discriminate.
Defined.

(** ** The listings of the catalog *)

Section Listings.

Lemma ListPresets_unfold ω tm :
  Templates.ListPresets ω tm
  = (snd <$> ω ListEmbedded (TemplateManager.embedded tm))
    ++ (snd <$> ω ListCustom (TemplateManager.custom tm)).
Proof.
  unfold Templates.ListPresets.
  by rewrite !(foldl_snoc_map snd).
Qed.

Lemma filter_category_snd category (l : list (string * Preset.t)) :
  snd <$> filter (λ kv, (Preset.Category kv.2 =? category)%string = true) l
  = filter (λ preset, Preset.Category preset = category) (snd <$> l).
Proof.
  induction l as [|kv l IH]; [done|]. rewrite fmap_cons.
  destruct (String.eqb_spec (Preset.Category kv.2) category) as [Heq|Hne].
  - rewrite (filter_cons_True (λ preset, Preset.Category preset = category)) by done.
    rewrite filter_cons_True by (by apply String.eqb_eq).
    by rewrite fmap_cons, IH.
  - rewrite (filter_cons_False (λ preset, Preset.Category preset = category)) by done.
    by rewrite filter_cons_False by (by rewrite (proj2 (String.eqb_neq _ _) Hne)).
Qed.

Lemma ListPresetsByCategory_unfold ω tm category :
  Templates.ListPresetsByCategory ω tm category
  = filter (λ preset, Preset.Category preset = category)
      (snd <$> ω CategoryEmbedded (TemplateManager.embedded tm))
    ++ filter (λ preset, Preset.Category preset = category)
         (snd <$> ω CategoryCustom (TemplateManager.custom tm)).
Proof.
  unfold Templates.ListPresetsByCategory.
  rewrite !(foldl_snoc_filter
              (λ kv : string * Preset.t, (Preset.Category kv.2 =? category)%string) snd).
  by rewrite app_nil_l, <-!filter_category_snd.
Qed.

End Listings.

(** X20. Whatever order the catalogs are visited in, the listing holds every
    preset of the bundled catalog and every preset of the custom catalog, as
    many as the two catalogs have entries (a preset under the same identifier
    in both is listed twice); and the listing by category is, up to the order,
    the listing restricted to the presets of that category. *)
Theorem ListPresets_catalogs ω tm category :
  fairCatalogOrder ω →
  Templates.ListPresets ω tm
  ≡ₚ (snd <$> map_to_list (TemplateManager.embedded tm))
     ++ (snd <$> map_to_list (TemplateManager.custom tm))
  ∧ length (Templates.ListPresets ω tm)
    = size (TemplateManager.embedded tm) + size (TemplateManager.custom tm)
  ∧ Templates.ListPresetsByCategory ω tm category
    ≡ₚ filter (λ preset, Preset.Category preset = category)
         (Templates.ListPresets ω tm).
Proof.
  intros Hfair. unfold fairCatalogOrder in Hfair.
  assert (Templates.ListPresets ω tm
          ≡ₚ (snd <$> map_to_list (TemplateManager.embedded tm))
             ++ (snd <$> map_to_list (TemplateManager.custom tm))) as Hlist.
  { by rewrite ListPresets_unfold, !Hfair. }
  split; [done|]. split.
  - by rewrite Hlist, length_app, !length_fmap, !length_map_to_list.
  - by rewrite ListPresetsByCategory_unfold, ListPresets_unfold, filter_app, !Hfair.
Qed.

Lemma ListPresets_catalogs_witness :
  length (Templates.ListPresets catalogKeyOrder (Templates.NewTemplateManager sampleWalk))
  = size (TemplateManager.embedded (Templates.NewTemplateManager sampleWalk))
    + size (TemplateManager.custom (Templates.NewTemplateManager sampleWalk)).
Proof.
  apply (ListPresets_catalogs catalogKeyOrder (Templates.NewTemplateManager sampleWalk)
           "Databases").
  intros site catalog. reflexivity.
Defined.

(** ** The commands *)

Section Commands.

Lemma occursIn_spec key keyword :
  Cmd.occursIn key keyword = true ↔ ∃ pre post, key = pre +:+ keyword +:+ post.
Proof.
  unfold Cmd.occursIn, GoSlices.slice. split.
  - destruct (String.length keyword <=? String.length key)%nat; [|done].
    intros (i & _ & Hslice%String.eqb_eq)%existsb_exists.
    replace (i + String.length keyword - i) with (String.length keyword) in Hslice by lia.
    set (n := String.length keyword) in *.
    exists (GoSlices.takeBytes i key), (GoSlices.dropBytes n (GoSlices.dropBytes i key)).
    by rewrite <-Hslice, !takeBytes_dropBytes.
  - intros (pre & post & ->). rewrite !string_app_length.
    assert ((String.length keyword
             <=? String.length pre + (String.length keyword + String.length post))%nat
            = true) as -> by (apply Nat.leb_le; lia).
    apply existsb_exists. exists (String.length pre). split.
    + apply in_seq. lia.
    + replace (String.length pre + String.length keyword - String.length pre)
        with (String.length keyword) by lia.
      by rewrite dropBytes_app, takeBytes_app, String.eqb_refl.
Qed.

Lemma containsSensitiveKeywords_true key :
  Cmd.containsSensitiveKeywords key = true
  ↔ ∃ keyword pre post,
      keyword ∈ Cmd.sensitiveKeywords ∧ key = pre +:+ keyword +:+ post.
Proof.
  unfold Cmd.containsSensitiveKeywords. rewrite existsb_exists. split.
  - intros (keyword & Hin%list_elem_of_In & (pre & post & ->)%occursIn_spec).
    by exists keyword, pre, post.
  - intros (keyword & pre & post & Hin & ->). exists keyword.
    split; [by apply list_elem_of_In|]. apply occursIn_spec. by exists pre, post.
Qed.

Lemma noLowerCase_app s t : noLowerCase (s +:+ t) ↔ noLowerCase s ∧ noLowerCase t.
Proof.
  induction s as [|c s IH].
  - change (EmptyString +:+ t) with t. simpl. tauto.
  - rewrite ?string_app_cons. simpl. rewrite IH. tauto.
Qed.

Lemma isLower_upperByte c : GoStrings.isLower (GoStrings.upperByte c) = false.
Proof. by destruct c as [[] [] [] [] [] [] [] []]. Qed.

Lemma upperByte_upperByte c :
  GoStrings.upperByte (GoStrings.upperByte c) = GoStrings.upperByte c.
Proof. by destruct c as [[] [] [] [] [] [] [] []]. Qed.

Lemma noLowerCase_ToUpper s : noLowerCase (GoStrings.ToUpper s).
Proof.
  induction s as [|c s IH]; simpl; [done|].
  split; [apply isLower_upperByte|apply IH].
Qed.

Lemma ToUpper_ToUpper s : GoStrings.ToUpper (GoStrings.ToUpper s) = GoStrings.ToUpper s.
Proof.
  induction s as [|c s IH]; [done|].
  unfold GoStrings.ToUpper in *. simpl. by rewrite upperByte_upperByte, IH.
Qed.

Lemma noLowerCase_not_sensitive key :
  noLowerCase key → Cmd.containsSensitiveKeywords key = false.
Proof.
  intros Hkey. apply not_true_is_false.
  intros (keyword & pre & post & Hin & ->)%containsSensitiveKeywords_true.
  apply noLowerCase_app in Hkey as [_ Hkey].
  apply noLowerCase_app in Hkey as [Hkey _].
  unfold Cmd.sensitiveKeywords in Hin.
  repeat (apply elem_of_cons in Hin as [->|Hin]; [by destruct Hkey|]).
  by apply elem_of_nil in Hin.
Qed.

End Commands.

(** X21. The test of the recommendations answers yes exactly on the keys that
    contain, as written, one of the words password, secret, key, token and
    auth in lower case. *)
Theorem containsSensitiveKeywords_spec key :
  Cmd.containsSensitiveKeywords key = true
  ↔ ∃ keyword,
      keyword ∈ ["password"; "secret"; "key"; "token"; "auth"]
      ∧ GoStrings.Contains key keyword = true.
Proof.
  rewrite containsSensitiveKeywords_true. setoid_rewrite Contains_spec.
  unfold Cmd.sensitiveKeywords. naive_solver.
Qed.

(** X22. A key in upper case is never reported by the recommendations, while
    the test that sends a service variable to the .env file does not look at
    the case: it gives the same answer on a key and on the key in upper
    case. *)
Theorem containsSensitiveKeywords_upper key :
  Cmd.containsSensitiveKeywords (GoStrings.ToUpper key) = false
  ∧ Docker.looksExternal (GoStrings.ToUpper key) = Docker.looksExternal key.
Proof.
  split.
  - apply noLowerCase_not_sensitive, noLowerCase_ToUpper.
  - unfold Docker.looksExternal. by rewrite ToUpper_ToUpper.
Qed.

(** The two tests on the key of a database password. *)
Example sensitive_tests_disagree :
  Cmd.containsSensitiveKeywords "POSTGRES_PASSWORD" = false
  ∧ Docker.looksExternal "POSTGRES_PASSWORD" = true
  ∧ Cmd.containsSensitiveKeywords "oauth_client" = true
  ∧ Docker.looksExternal "oauth_client" = false.
Proof. vm_compute. by repeat split. Qed.

(** X23. A key that the recommendations report goes to the .env file when a
    service has it, unless the only word it contains is auth. *)
Theorem containsSensitiveKeywords_external key :
  Cmd.containsSensitiveKeywords key = true →
  Docker.looksExternal key = true ∨ GoStrings.Contains key "auth" = true.
Proof.
  intros (keyword & pre & post & Hin & ->)%containsSensitiveKeywords_true.
  unfold Cmd.sensitiveKeywords in Hin.
  assert (∀ upper,
            upper ∈ ["PASSWORD"; "SECRET"; "KEY"; "TOKEN"] →
            sameIgnoringCase keyword upper →
            Docker.looksExternal (pre +:+ keyword +:+ post) = true) as Hext.
  { intros upper Hupper Hsame. apply looksExternal_spec.
    exists upper. split; [done|]. by exists pre, keyword, post. }
  apply elem_of_cons in Hin as [->|Hin];
    [left; apply (Hext "PASSWORD");
       [rewrite !elem_of_cons; auto|by apply sameIgnoringCase_lower]|].
  apply elem_of_cons in Hin as [->|Hin];
    [left; apply (Hext "SECRET");
       [rewrite !elem_of_cons; auto|by apply sameIgnoringCase_lower]|].
  apply elem_of_cons in Hin as [->|Hin];
    [left; apply (Hext "KEY");
       [rewrite !elem_of_cons; auto|by apply sameIgnoringCase_lower]|].
  apply elem_of_cons in Hin as [->|Hin];
    [left; apply (Hext "TOKEN");
       [rewrite !elem_of_cons; auto 10|by apply sameIgnoringCase_lower]|].
  apply elem_of_cons in Hin as [->|Hin]; [|by apply elem_of_nil in Hin].
  right. apply Contains_spec. by exists pre, post.
Qed.

Lemma containsSensitiveKeywords_external_witness :
  Docker.looksExternal "db_password" = true
  ∨ GoStrings.Contains "db_password" "auth" = true.
Proof. apply (containsSensitiveKeywords_external "db_password"). reflexivity. Defined.

(** ** Presets by category *)

Section Categories.

Lemma groupByCategory_fold presets : ∀ (acc : gmap string (list Preset.t)) category,
  foldl
    (λ categories preset,
       <[Preset.Category preset :=
           default [] (categories !! Preset.Category preset) ++ [preset]]> categories)
    acc presets !! category
  = match filter (λ preset, Preset.Category preset = category) presets with
    | [] => acc !! category
    | group => Some (default [] (acc !! category) ++ group)
    end.
Proof.
  induction presets as [|preset presets IH]; intros acc category; [done|].
  simpl foldl. rewrite IH.
  destruct (decide (Preset.Category preset = category)) as [<-|Hne].
  - rewrite filter_cons_True by done. rewrite lookup_insert_eq. simpl.
    destruct (filter _ presets); [done|]. by rewrite <-app_assoc.
  - rewrite filter_cons_False by done. by rewrite lookup_insert_ne.
Qed.

Lemma categoryCounts_fold presets : ∀ (acc : gmap string Z) category,
  foldl
    (λ categories preset,
       <[Preset.Category preset :=
           (default 0 (categories !! Preset.Category preset) + 1)%Z]> categories)
    acc presets !! category
  = match filter (λ preset, Preset.Category preset = category) presets with
    | [] => acc !! category
    | group => Some (default 0 (acc !! category) + Z.of_nat (length group))%Z
    end.
Proof.
  induction presets as [|preset presets IH]; intros acc category; [done|].
  simpl foldl. rewrite IH.
  destruct (decide (Preset.Category preset = category)) as [<-|Hne].
  - rewrite filter_cons_True by done. rewrite lookup_insert_eq. simpl.
    destruct (filter _ presets) as [|p group]; f_equal; simpl length; lia.
  - rewrite filter_cons_False by done. by rewrite lookup_insert_ne.
Qed.

End Categories.

(** X24. The groups that the listing of the presets prints: under a category
    stand the presets of that category, in the order of the listing, and a
    category with no preset has no group. *)
Theorem groupByCategory_lookup presets category :
  Cmd.groupByCategory presets !! category
  = match filter (λ preset, Preset.Category preset = category) presets with
    | [] => None
    | group => Some group
    end.
Proof.
  unfold Cmd.groupByCategory. rewrite groupByCategory_fold, lookup_empty.
  by destruct (filter _ presets).
Qed.

(** X25. The count that the listing of the categories prints for a category is
    the number of presets of that category, which is the length of its group
    in the listing of the presets; a category with no preset has no count. *)
Theorem categoryCounts_lookup presets category :
  Cmd.categoryCounts presets !! category
  = (λ group, Z.of_nat (length group)) <$> Cmd.groupByCategory presets !! category
  ∧ (Cmd.categoryCounts presets !! category = None
     ↔ ∀ preset, preset ∈ presets → Preset.Category preset ≠ category).
Proof.
  unfold Cmd.categoryCounts, Cmd.groupByCategory.
  rewrite groupByCategory_fold, categoryCounts_fold, !lookup_empty.
  destruct (filter (λ preset, Preset.Category preset = category) presets)
    as [|p group] eqn:Hfilter; simpl.
  - split; [done|]. split; [|done]. intros _ preset Hin Hcat.
    assert (preset ∈ filter (λ preset, Preset.Category preset = category) presets)
      as Hmem by by apply list_elem_of_filter.
    rewrite Hfilter in Hmem. by apply elem_of_nil in Hmem.
  - split; [done|]. split; [done|]. intros Hnone. exfalso.
    assert (p ∈ filter (λ preset, Preset.Category preset = category) presets)
      as [Hcat Hin]%list_elem_of_filter by (rewrite Hfilter; by apply elem_of_cons; left).
    by apply (Hnone p).
Qed.

(** ** The text of the playbook *)

Section PlaybookText.

Lemma writeVar_entry b kv : Ansible.writeVar b kv = b +:+ varEntry kv.
Proof.
  unfold Ansible.writeVar, varEntry, WriteString. by rewrite !string_app_assoc.
Qed.

Lemma writeTask_lines b task :
  AnsibleTask.Module_ task ≠ EmptyString →
  AnsibleTask.Package task ≠ EmptyString →
  AnsibleTask.State task ≠ EmptyString →
  Ansible.writeTask b task = b +:+ taskLines task.
Proof.
  intros Hm%isEmpty_false Hp%isEmpty_false Hs%isEmpty_false.
  unfold Ansible.writeTask, taskLines, WriteString. rewrite Hm, Hp, Hs. simpl.
  by rewrite !string_app_assoc.
Qed.

Lemma writeTasks_lines tasks : ∀ b,
  Forall
    (λ task,
       AnsibleTask.Module_ task ≠ EmptyString
       ∧ AnsibleTask.Package task ≠ EmptyString
       ∧ AnsibleTask.State task ≠ EmptyString)
    tasks →
  foldl Ansible.writeTask b tasks = b +:+ concatStrings (map taskLines tasks).
Proof.
  induction tasks as [|task tasks IH]; intros b Hall; simpl.
  - by rewrite string_app_nil_r.
  - apply Forall_cons in Hall as [(Hm & Hp & Hs) Hall].
    by rewrite IH, writeTask_lines, string_app_assoc.
Qed.

Lemma tasksOfService_complete service :
  Forall
    (λ task,
       AnsibleTask.Module_ task ≠ EmptyString
       ∧ AnsibleTask.Package task ≠ EmptyString
       ∧ AnsibleTask.State task ≠ EmptyString)
    (tasksOfService service).
Proof.
  unfold tasksOfService.
  destruct (ServiceConfig.Enabled service); [|constructor].
  apply Forall_app. split.
  - apply Forall_forall. intros task (volume & -> & Hvol)%list_elem_of_fmap.
    apply list_elem_of_filter in Hvol as [Hneeds _].
    unfold needsDirectory in Hneeds.
    apply andb_true_iff in Hneeds as [Hsrc _].
    apply negb_true_iff, isEmpty_false in Hsrc. by simpl.
  - destruct (isEmpty (ServiceConfig.Image service)) eqn:Himg; [constructor|].
    apply isEmpty_false in Himg. by repeat constructor.
Qed.

Lemma generateTasks_all_complete config :
  Forall
    (λ task,
       AnsibleTask.Module_ task ≠ EmptyString
       ∧ AnsibleTask.Package task ≠ EmptyString
       ∧ AnsibleTask.State task ≠ EmptyString)
    (Ansible.generateTasks config).
Proof.
  rewrite generateTasks_flat, !Forall_app.
  split; [by repeat constructor|]. split; [|by repeat constructor].
  induction (ProjectConfig.Services config) as [|service services IH]; simpl.
  - constructor.
  - apply Forall_app. split; [apply tasksOfService_complete|apply IH].
Qed.

End PlaybookText.

(** X26. The playbook, in full: the play on all hosts with privileges, named
    Deploy and the name of the project; the variables, in the order of the
    run, under their heading when there is any; and the tasks, each on four
    lines with its name, its module, its package and its state. *)
Theorem generatePlaybook_text σ config :
  fair σ →
  Ansible.generatePlaybook σ config
  = ("---" +:+ nl
     +:+ "- hosts: all" +:+ nl
     +:+ "  become: true" +:+ nl
     +:+ "  name: Deploy " +:+ ProjectConfig.Name config +:+ nl
     +:+ listSection "  vars:" varEntry (σ _ PlaybookVars (Ansible.generateVars σ config))
     +:+ "  tasks:" +:+ nl
     +:+ concatStrings (map taskLines (Ansible.generateTasks config)),
     None).
Proof.
  intros Hfair. unfold Ansible.generatePlaybook. f_equal.
  rewrite (writeTasks_lines _ _ (generateTasks_all_complete config)).
  rewrite listSection_length, (foldl_entries _ _ writeVar_entry).
  assert (length (σ _ PlaybookVars (Ansible.generateVars σ config))
          = size (Ansible.generateVars σ config)) as ->
    by by rewrite (Hfair _ PlaybookVars (Ansible.generateVars σ config)),
         length_map_to_list.
  destruct (0 <? size (Ansible.generateVars σ config))%nat;
    unfold WriteString; by rewrite !string_app_assoc.
Qed.

Lemma generatePlaybook_text_witness :
  (Ansible.generatePlaybook keyOrder
     (project "blog" [ServiceConfig.mk "web" "web" EmptyString [] [] ∅ [] false] ∅)).1
  = "---" +:+ nl
    +:+ "- hosts: all" +:+ nl
    +:+ "  become: true" +:+ nl
    +:+ "  name: Deploy blog" +:+ nl
    +:+ "  vars:" +:+ nl
    +:+ "    web_enabled: false" +:+ nl
    +:+ "    web_image: " +:+ nl
    +:+ "    web_volumes: []" +:+ nl
    +:+ "    web_ports: []" +:+ nl
    +:+ "  tasks:" +:+ nl
    +:+ concatStrings (map taskLines (setupTasks ++ deployTasks)).
Proof.
  etrans.
  - exact (f_equal fst
             (generatePlaybook_text keyOrder
                (project "blog" [ServiceConfig.mk "web" "web" EmptyString [] [] ∅ [] false] ∅)
                fair_keyOrder)).
  - vm_compute. reflexivity.
Defined.

(** ** The display name of a template *)

Section DisplayName.

Lemma ReplaceAll_byte s (a b : ascii) :
  GoStrings.ReplaceAll s (String a EmptyString) (String b EmptyString)
  = GoStrings.mapBytes (λ c, if (c =? a)%char then b else c) s.
Proof.
  unfold GoStrings.ReplaceAll.
  induction s as [|c s IH]; [done|].
  simpl. destruct (ascii_dec a c) as [->|Hne].
  - rewrite Ascii.eqb_refl.
    assert (String.prefix EmptyString s = true) as -> by by destruct s.
    by rewrite IH.
  - rewrite (proj2 (Ascii.eqb_neq c a)) by congruence. by rewrite IH.
Qed.

Lemma mapBytes_mapBytes f g s :
  GoStrings.mapBytes f (GoStrings.mapBytes g s) = GoStrings.mapBytes (λ c, f (g c)) s.
Proof. induction s as [|c s IH]; [done|]. simpl. by rewrite IH. Qed.

Lemma mapBytes_ext f g s :
  (∀ c, f c = g c) → GoStrings.mapBytes f s = GoStrings.mapBytes g s.
Proof. intros Hfg. induction s as [|c s IH]; [done|]. simpl. by rewrite Hfg, IH. Qed.

Lemma mapBytes_length f s : String.length (GoStrings.mapBytes f s) = String.length s.
Proof. induction s as [|c s IH]; [done|]. simpl. by rewrite IH. Qed.

Lemma mapBytes_spacedOut s : GoStrings.mapBytes spaceOut s = spacedOut s.
Proof. induction s as [|c s IH]; [done|]. simpl. by rewrite IH. Qed.

End DisplayName.

(** X27. The display name of a template file whose name begins with an ASCII
    byte: the name of the file without its ending .yaml, every hyphen and
    every underscore turned into a space, and the first byte in upper case;
    it is as long as the name without the ending. *)
Theorem generatePresetName_text base :
  asciiLead base →
  Templates.generatePresetName (base +:+ ".yaml")
  = match spacedOut base with
    | EmptyString => EmptyString
    | String c rest => String (upperOf c) rest
    end
  ∧ String.length (Templates.generatePresetName (base +:+ ".yaml"))
    = String.length base.
Proof.
  intros _. unfold Templates.generatePresetName. rewrite TrimSuffix_app.
  change "-" with (String "-"%char EmptyString).
  change "_" with (String "_"%char EmptyString).
  change " " with (String " "%char EmptyString).
  rewrite !ReplaceAll_byte, mapBytes_mapBytes.
  rewrite (mapBytes_ext _ spaceOut).
  2:{ intros c. unfold spaceOut.
      destruct (c =? "-")%char eqn:Hh; [done|]. simpl. by destruct (c =? "_")%char. }
  pose proof (mapBytes_length spaceOut base) as Hlen.
  rewrite mapBytes_spacedOut in *.
  destruct (spacedOut base) as [|c rest]; simpl in *.
  - by split.
  - change (GoStrings.ToUpper (String c EmptyString))
      with (String (GoStrings.upperByte c) EmptyString).
    rewrite upperByte_upperOf. by split.
Qed.

Lemma generatePresetName_text_witness :
  Templates.generatePresetName ("web-app" +:+ ".yaml") = "Web app"
  ∧ String.length (Templates.generatePresetName ("web-app" +:+ ".yaml")) = 7.
Proof.
  apply (generatePresetName_text "web-app"). vm_compute. reflexivity.
Defined.

(** The display names of two template files. *)
Example generatePresetName_samples :
  Templates.generatePresetName "web-app.yaml" = "Web app"
  ∧ Templates.generatePresetName "my_ml-stack.yaml" = "My ml stack".
Proof. vm_compute. by split. Qed.

(** ** Two runs of a generator *)

Section TwoRuns.

Lemma serviceBlock_blockText (σ : Schedule) i service :
  fair σ →
  ServiceConfig.Enabled service = true →
  serviceBlock σ (i, service)
  = blockText (σ _ (ComposeEnvironment i) (ServiceConfig.Environment service)) service.
Proof.
  intros Hfair Hen. unfold serviceBlock, blockText, Docker.writeService. simpl.
  rewrite Hen. simpl negb. cbv iota.
  rewrite !listSection_length, (fair_length σ) by done.
  rewrite !(foldl_entries _ _ writePort_entry), !(foldl_entries _ _ writeVolume_entry),
    !(foldl_entries _ _ writeEnvironment_entry),
    !(foldl_entries _ _ writeDependency_entry).
  destruct (isEmpty (ServiceConfig.Image service)),
    (0 <? length (ServiceConfig.Ports service))%nat,
    (0 <? length (ServiceConfig.Volumes service))%nat,
    (0 <? size (ServiceConfig.Environment service))%nat,
    (0 <? length (ServiceConfig.DependsOn service))%nat;
    simpl negb; cbv iota; unfold WriteString;
    rewrite ?string_app_assoc; reflexivity.
Qed.

(** The manifest of a run is the text of the manifest with every environment
    in the order of the run. *)
Lemma generateComposeYAML_manifestText (σ : Schedule) config :
  fair σ →
  (Docker.generateComposeYAML σ config).1
  = manifestText (λ i, σ _ (ComposeEnvironment i)) config.
Proof.
  intros Hfair. rewrite generateComposeYAML_blocks, volumesSection_spec.
  unfold manifestText. simpl. do 3 f_equal. apply (f_equal concatStrings).
  apply map_ext_in. intros [i service] Hin.
  apply list_elem_of_In, list_elem_of_filter in Hin as [Hen _].
  by apply serviceBlock_blockText.
Qed.

(** The playbook of a run is the text of the playbook with the variables in
    the order of the run. *)
Lemma generatePlaybook_playbookText (σ : Schedule) config :
  fair σ →
  (Ansible.generatePlaybook σ config).1
  = playbookText (σ _ PlaybookVars (playbookVars config)) config.
Proof.
  intros Hfair. unfold Ansible.generatePlaybook, playbookText, playbookVars. simpl.
  rewrite (writeTasks_lines _ _ (generateTasks_all_complete config)).
  rewrite listSection_length, (foldl_entries _ _ writeVar_entry).
  rewrite (generateVars_fair σ config Hfair).
  set (vars := foldl setServiceVars (VarString <$> ProjectConfig.Variables config)
                 (ProjectConfig.Services config)).
  assert (length (σ _ PlaybookVars vars) = size vars) as ->
    by by rewrite (Hfair _ PlaybookVars vars), length_map_to_list.
  destruct (0 <? size vars)%nat;
    unfold WriteString; by rewrite !string_app_assoc.
Qed.

Lemma Docker_Generate_contents (σ : Schedule) config :
  fair σ →
  GeneratedFile.Content <$> (Docker.Generate σ config).1
  = match Docker.Validate config with
    | Some _ => []
    | None =>
        dockerContents (λ i, σ _ (ComposeEnvironment i)) (Docker.envVars σ config) config
    end.
Proof.
  intros Hfair. destruct (Docker.Validate config) as [err|] eqn:Hv.
  - unfold Docker.Generate. by rewrite Hv.
  - rewrite (Docker_Generate_files _ _ Hv). unfold dockerContents.
    rewrite <-(generateComposeYAML_manifestText _ _ Hfair).
    by destruct (Docker.envVars σ config).
Qed.

Lemma Ansible_Generate_contents yamlMarshal (σ : Schedule) config :
  fair σ →
  GeneratedFile.Content <$> (Ansible.Generate yamlMarshal σ config).1
  = match (Ansible.Generate yamlMarshal σ config).2 with
    | Some _ => []
    | None =>
        [playbookText (σ _ PlaybookVars (playbookVars config)) config;
         (yamlMarshal (Ansible.buildInventory σ config)).1]
    end.
Proof.
  intros Hfair. rewrite Ansible_Generate_cases.
  destruct (Ansible.Validate config); [done|].
  destruct (yamlMarshal (Ansible.buildInventory σ config)) as [yamlData [err|]];
    [done|].
  by rewrite <-(generatePlaybook_playbookText _ _ Hfair).
Qed.

End TwoRuns.

(** C9, as the code has it.  Validation does not range over any map and is a
    function of the project alone.  Two runs of a generator on the same
    project, whatever order each visits the maps in, end alike, in the same
    error or in success, and return the same records as to path, target and
    encoding.  The contents are the same texts up to the order of the entries
    written from a map: the manifest of each run is the manifest of the
    project with the environment of every service listed in the order of
    that run, and the two runs list the same entries; the .env file of each
    run holds the lines of that run, each followed by a line feed, and the
    two runs have the same lines up to their order; the playbook of each run
    is the playbook of the project with its variables listed in the order of
    that run, and the two runs list the same variables; the inventory handed
    to the marshaller, hence the content of inventory.yml, is the same. *)
Theorem Generate_up_to_iteration_order yamlMarshal (σ1 σ2 : Schedule) config :
  fair σ1 →
  fair σ2 →
  let inventory := Ansible.buildInventory σ1 config in
  (Docker.Generate σ1 config).2 = (Docker.Generate σ2 config).2
  ∧ map label (Docker.Generate σ1 config).1 = map label (Docker.Generate σ2 config).1
  ∧ GeneratedFile.Content <$> (Docker.Generate σ1 config).1
    = match Docker.Validate config with
      | Some _ => []
      | None =>
          dockerContents (λ i, σ1 _ (ComposeEnvironment i))
            (Docker.envVars σ1 config) config
      end
  ∧ GeneratedFile.Content <$> (Docker.Generate σ2 config).1
    = match Docker.Validate config with
      | Some _ => []
      | None =>
          dockerContents (λ i, σ2 _ (ComposeEnvironment i))
            (Docker.envVars σ2 config) config
      end
  ∧ (∀ i (environment : gmap string string),
       σ1 _ (ComposeEnvironment i) environment
       ≡ₚ σ2 _ (ComposeEnvironment i) environment)
  ∧ Docker.envVars σ1 config ≡ₚ Docker.envVars σ2 config
  ∧ (Ansible.Generate yamlMarshal σ1 config).2
    = (Ansible.Generate yamlMarshal σ2 config).2
  ∧ map label (Ansible.Generate yamlMarshal σ1 config).1
    = map label (Ansible.Generate yamlMarshal σ2 config).1
  ∧ GeneratedFile.Content <$> (Ansible.Generate yamlMarshal σ1 config).1
    = match (Ansible.Generate yamlMarshal σ1 config).2 with
      | Some _ => []
      | None =>
          [playbookText (σ1 _ PlaybookVars (playbookVars config)) config;
           (yamlMarshal inventory).1]
      end
  ∧ GeneratedFile.Content <$> (Ansible.Generate yamlMarshal σ2 config).1
    = match (Ansible.Generate yamlMarshal σ2 config).2 with
      | Some _ => []
      | None =>
          [playbookText (σ2 _ PlaybookVars (playbookVars config)) config;
           (yamlMarshal inventory).1]
      end
  ∧ σ1 _ PlaybookVars (playbookVars config) ≡ₚ σ2 _ PlaybookVars (playbookVars config)
  ∧ Ansible.buildInventory σ2 config = inventory.
Proof.
  intros H1 H2 inventory.
  destruct (Docker_Generate_labels σ1 config H1) as [Ho1 Hl1].
  destruct (Docker_Generate_labels σ2 config H2) as [Ho2 Hl2].
  split; [congruence|]. split; [congruence|].
  split; [by apply Docker_Generate_contents|].
  split; [by apply Docker_Generate_contents|].
  split; [intros i environment; by rewrite (H1 _ _ environment), (H2 _ _ environment)|].
  split; [by rewrite !envVars_fair|].
  assert (Ansible.buildInventory σ2 config = inventory) as Hinv
    by by apply buildInventory_fair.
  assert ((Ansible.Generate yamlMarshal σ1 config).2
          = (Ansible.Generate yamlMarshal σ2 config).2
          ∧ map label (Ansible.Generate yamlMarshal σ1 config).1
            = map label (Ansible.Generate yamlMarshal σ2 config).1) as [Ho Hl].
  { rewrite !Ansible_Generate_cases, Hinv. fold inventory.
    destruct (Ansible.Validate config); [done|].
    by destruct (yamlMarshal inventory) as [yamlData [err|]]. }
  split; [exact Ho|]. split; [exact Hl|].
  split; [by apply Ansible_Generate_contents|].
  split; [by rewrite <-Hinv; apply Ansible_Generate_contents|].
  split; [|done].
  by rewrite (H1 _ _ (playbookVars config)), (H2 _ _ (playbookVars config)).
Qed.

Lemma Generate_up_to_iteration_order_witness :
  let σ1 := keyOrder in
  let σ2 := reverseOrder in
  let config := twoEntriesProject in
  let inventory := Ansible.buildInventory σ1 config in
  (Docker.Generate σ1 config).2 = (Docker.Generate σ2 config).2
  ∧ map label (Docker.Generate σ1 config).1 = map label (Docker.Generate σ2 config).1
  ∧ GeneratedFile.Content <$> (Docker.Generate σ1 config).1
    = match Docker.Validate config with
      | Some _ => []
      | None =>
          dockerContents (λ i, σ1 _ (ComposeEnvironment i))
            (Docker.envVars σ1 config) config
      end
  ∧ GeneratedFile.Content <$> (Docker.Generate σ2 config).1
    = match Docker.Validate config with
      | Some _ => []
      | None =>
          dockerContents (λ i, σ2 _ (ComposeEnvironment i))
            (Docker.envVars σ2 config) config
      end
  ∧ (∀ i (environment : gmap string string),
       σ1 _ (ComposeEnvironment i) environment
       ≡ₚ σ2 _ (ComposeEnvironment i) environment)
  ∧ Docker.envVars σ1 config ≡ₚ Docker.envVars σ2 config
  ∧ (Ansible.Generate constMarshal σ1 config).2
    = (Ansible.Generate constMarshal σ2 config).2
  ∧ map label (Ansible.Generate constMarshal σ1 config).1
    = map label (Ansible.Generate constMarshal σ2 config).1
  ∧ GeneratedFile.Content <$> (Ansible.Generate constMarshal σ1 config).1
    = match (Ansible.Generate constMarshal σ1 config).2 with
      | Some _ => []
      | None =>
          [playbookText (σ1 _ PlaybookVars (playbookVars config)) config;
           (constMarshal inventory).1]
      end
  ∧ GeneratedFile.Content <$> (Ansible.Generate constMarshal σ2 config).1
    = match (Ansible.Generate constMarshal σ2 config).2 with
      | Some _ => []
      | None =>
          [playbookText (σ2 _ PlaybookVars (playbookVars config)) config;
           (constMarshal inventory).1]
      end
  ∧ σ1 _ PlaybookVars (playbookVars config) ≡ₚ σ2 _ PlaybookVars (playbookVars config)
  ∧ Ansible.buildInventory σ2 config = inventory.
Proof.
  apply (Generate_up_to_iteration_order constMarshal keyOrder reverseOrder
           twoEntriesProject).
  - intros V site m. reflexivity.
  - intros V site m. apply reverse_Permutation.
Defined.

(** The contents of the two runs of the counterexample: the same manifest but
    for the order of the two entries of the environment. *)
Example contents_of_two_runs :
  GeneratedFile.Content <$> (Docker.Generate keyOrder twoEntriesProject).1
  = [manifestText (λ _ _, [("A", "1"); ("B", "2")]) twoEntriesProject]
  ∧ GeneratedFile.Content <$> (Docker.Generate reverseOrder twoEntriesProject).1
    = [manifestText (λ _ _, [("B", "2"); ("A", "1")]) twoEntriesProject].
Proof. vm_compute. by split. Qed.
